(** * gen_report: a shallow embedding of [src/gen_report/__main__.py]

    The program gathers weekly member reports from a folder, groups
    historical weeks as few-shot examples, assembles a prompt, calls a
    language model once and writes the answer to a file.

    Python [str] values are sequences of Unicode code points, so a string
    is a [list N] here.  Literals of the source are written as Rocq string
    literals (UTF-8 bytes in this file) and decoded to code points. *)

From Stdlib Require Import Strings.String Strings.Ascii Numbers.DecimalString.
From Stdlib Require Import List NArith ZArith Bool Lia.
From Stdlib Require Import Sorting.Permutation Sorting.Sorted.
From Stdlib Require Import Floats.SpecFloat.
Import ListNotations.

Open Scope N_scope.
Open Scope list_scope.
Open Scope bool_scope.

(* ================================================================= *)
(** ** Python strings *)

Module PyStr.

Definition codepoint := N.
Definition str := list codepoint.

(** UTF-8 decoding of the bytes of a literal written in this file. *)
Fixpoint utf8 (bs : list N) : str :=
  match bs with
  | [] => []
  | b0 :: r0 =>
      if b0 <? 128 then b0 :: utf8 r0
      else
        match r0 with
        | [] => []
        | b1 :: r1 =>
            if b0 <? 224 then ((b0 - 192) * 64 + (b1 - 128)) :: utf8 r1
            else
              match r1 with
              | [] => []
              | b2 :: r2 =>
                  if b0 <? 240
                  then ((b0 - 224) * 4096 + (b1 - 128) * 64 + (b2 - 128)) :: utf8 r2
                  else
                    match r2 with
                    | [] => []
                    | b3 :: r3 =>
                        ((b0 - 240) * 262144 + (b1 - 128) * 4096
                         + (b2 - 128) * 64 + (b3 - 128)) :: utf8 r3
                    end
              end
        end
  end.

Definition py (s : string) : str :=
  utf8 (map N_of_ascii (list_ascii_of_string s)).

(** [chr(10)], written ["\n"] in the source. *)
Definition nl : str := [10].

(** [a == b] on strings. *)
Fixpoint str_eqb (a b : str) : bool :=
  match a, b with
  | [], [] => true
  | x :: a', y :: b' => (x =? y) && str_eqb a' b'
  | _, _ => false
  end.

(** [a < b] on strings: lexicographic on code points. *)
Fixpoint str_ltb (a b : str) : bool :=
  match a, b with
  | _, [] => false
  | [], _ :: _ => true
  | x :: a', y :: b' => (x <? y) || ((x =? y) && str_ltb a' b')
  end.

(** Truth value of a string: [if s:] holds for the non-empty ones. *)
Definition truthy (s : str) : bool :=
  match s with [] => false | _ :: _ => true end.

(** [s.startswith(p)], returning the rest of [s]. *)
Fixpoint strip_prefix (p s : str) : option str :=
  match p, s with
  | [], _ => Some s
  | _ :: _, [] => None
  | x :: p', y :: s' => if x =? y then strip_prefix p' s' else None
  end.

Definition startswith (p s : str) : bool :=
  match strip_prefix p s with Some _ => true | None => false end.

(** [sub in s]: [sub] occurs in [s] as a contiguous substring. *)
Fixpoint contains (sub s : str) : bool :=
  startswith sub s ||
  match s with
  | [] => false
  | _ :: s' => contains sub s'
  end.

(** [sep.join(parts)]. *)
Fixpoint join (sep : str) (parts : list str) : str :=
  match parts with
  | [] => []
  | [p] => p
  | p :: rest => p ++ sep ++ join sep rest
  end.

(** [str.isspace] for one code point: the characters [str.strip()]
    removes. *)
Definition isspace (c : codepoint) : bool :=
  ((9 <=? c) && (c <=? 13)) || ((28 <=? c) && (c <=? 32))
  || (c =? 133) || (c =? 160) || (c =? 5760)
  || ((8192 <=? c) && (c <=? 8202))
  || (c =? 8232) || (c =? 8233) || (c =? 8239) || (c =? 8287)
  || (c =? 12288).

Fixpoint lstrip (s : str) : str :=
  match s with
  | [] => []
  | c :: r => if isspace c then lstrip r else s
  end.

Definition rstrip (s : str) : str := rev (lstrip (rev s)).

(** [s.strip()]. *)
Definition strip (s : str) : str := rstrip (lstrip s).

(** [s.lower()].  Only the part of Unicode lower-casing that can produce
    an ASCII character is spelled out: the letters A-Z, U+212A (Kelvin
    sign, to [k]) and U+0130 (to [i] followed by U+0307).  Every other
    case pair maps a non-ASCII code point to non-ASCII ones; the source
    compares the result with ASCII literals only. *)
Definition lower1 (c : codepoint) : str :=
  if (65 <=? c) && (c <=? 90) then [c + 32]
  else if c =? 8490 then [107]
  else if c =? 304 then [105; 775]
  else [c].

Definition lower (s : str) : str := flat_map lower1 s.

(** [s.rfind(c)]: index of the last occurrence. *)
Fixpoint rfind (c : codepoint) (s : str) : option nat :=
  match s with
  | [] => None
  | x :: r =>
      match rfind c r with
      | Some i => Some (S i)
      | None => if x =? c then Some O else None
      end
  end.

(** [str(n)] for a non-negative integer. *)
Definition str_of_nat (n : nat) : str :=
  py (NilZero.string_of_uint (Nat.to_uint n)).

(** Unicode decimal digits (general category Nd, Unicode 14.0), the class
    [\d] of a [str] pattern: every block is ten consecutive code points
    starting at one of these, and U+1D7CE..U+1D7FF holds five such
    blocks. *)
Definition Nd_block_starts : list N :=
  [48; 1632; 1776; 1984; 2406; 2534; 2662; 2790; 2918; 3046; 3174; 3302;
   3430; 3558; 3664; 3792; 3872; 4160; 4240; 6112; 6160; 6470; 6608; 6784;
   6800; 6992; 7088; 7232; 7248; 42528; 43216; 43264; 43472; 43504; 43600;
   44016; 65296; 66720; 68912; 69734; 69872; 69942; 70096; 70384; 70736;
   70864; 71248; 71360; 71472; 71904; 72016; 72784; 73040; 73120; 92768;
   92864; 93008; 120782; 120792; 120802; 120812; 120822; 123200; 123632;
   125264; 130032].

Definition isdecimal (c : codepoint) : bool :=
  existsb (fun b => (b <=? c) && (c <? b + 10)) Nd_block_starts.

(** The ten ASCII digits. *)
Definition isascii_digit (c : codepoint) : bool := (48 <=? c) && (c <=? 57).

End PyStr.
Import PyStr.

(* ================================================================= *)
(** ** Module constants *)

(** [r"^(?P<name>.+?)工作報告-(?P<date>\d{8})\.(?P<ext>docx|doc|md)$"] is
    embedded below as [MEMBER_REPORT_REGEX_match]; these are its literal
    parts. *)
Definition REPORT_MARK : str := Eval cbv in py "工作報告-".
Definition EXT_ALTERNATIVES : list str :=
  Eval cbv in [py "docx"; py "doc"; py "md"].

Definition TEAM_REPORT_HINT : str := Eval cbv in py "之工作報告".

(* ================================================================= *)
(** ** The member-report pattern *)

Module Regex.

(** [.] without DOTALL: any code point except a newline. *)
Definition dot_matches (c : codepoint) : bool := negb (c =? 10).

(** [$] without MULTILINE: the end of the string, or just before a
    newline that ends the string. *)
Definition at_end (s : str) : bool :=
  match s with
  | [] => true
  | [c] => c =? 10
  | _ => false
  end.

(** [\d{n}]: exactly [n] decimal digits; the digits and the rest. *)
Fixpoint digits (n : nat) (s : str) : option (str * str) :=
  match n with
  | O => Some ([], s)
  | S n' =>
      match s with
      | [] => None
      | c :: r =>
          if isdecimal c then
            match digits n' r with
            | Some (d, z) => Some (c :: d, z)
            | None => None
            end
          else None
      end
  end.

(** [(docx|doc|md)$]: the alternatives are tried from left to right and
    the first one after which [$] succeeds is the group. *)
Fixpoint alternatives_then_end (alts : list str) (s : str) : option str :=
  match alts with
  | [] => None
  | a :: more =>
      match strip_prefix a s with
      | Some z => if at_end z then Some a else alternatives_then_end more s
      | None => alternatives_then_end more s
      end
  end.

(** Everything after the name group:
    [工作報告-(?P<date>\d{8})\.(?P<ext>docx|doc|md)$]. *)
Definition after_name (s : str) : option (str * str) :=
  match strip_prefix REPORT_MARK s with
  | None => None
  | Some s1 =>
      match digits 8 s1 with
      | None => None
      | Some (date, s2) =>
          match s2 with
          | 46 :: s3 =>
              match alternatives_then_end EXT_ALTERNATIVES s3 with
              | Some ext => Some (date, ext)
              | None => None
              end
          | _ => None
          end
      end
  end.

(** The groups of a successful match. *)
Record Match := { group_name : str; group_date : str; group_ext : str }.

(** [(?P<name>.+?)]: the lazy quantifier takes one more character at a
    time and tries the rest of the pattern after each; [taken] is what
    the group holds so far. *)
Fixpoint lazy_name (taken s : str) : option Match :=
  match s with
  | [] => None
  | c :: r =>
      if dot_matches c then
        match after_name r with
        | Some (date, ext) =>
            Some {| group_name := taken ++ [c]; group_date := date;
                    group_ext := ext |}
        | None => lazy_name (taken ++ [c]) r
        end
      else None
  end.

(** [MEMBER_REPORT_REGEX.match(s)]: anchored at the start by [match] and
    [^]. *)
Definition MEMBER_REPORT_REGEX_match (s : str) : option Match :=
  lazy_name [] s.

End Regex.
Import Regex.

(* ================================================================= *)
(** ** Files and text extraction *)

(** A directory entry as the program observes it: its name, whether
    [is_file()] holds, what [read_text(encoding="utf-8")] returns and what
    [mammoth.convert_to_markdown] gives as [result.value]; [None] stands
    for a raised exception (unreadable file, invalid UTF-8, failed
    conversion). *)
Record Path := {
  path_name : str;
  path_is_file : bool;
  path_read_text : option str;
  path_mammoth : option str
}.

(** A folder as seen by [exists()] and [glob("*")]: [None] when it does
    not exist, otherwise its entries in the order [glob] lists them. *)
Definition Folder := option (list Path).

Definition glob_star (folder : Folder) : list Path :=
  match folder with
  | Some entries => entries
  | None => []
  end.

(** [PurePath.suffix] of a file name. *)
Definition suffix (nm : str) : str :=
  match rfind 46 nm with
  | Some i =>
      if (Nat.ltb 0 i) && (Nat.ltb i (length nm - 1)) then skipn i nm else []
  | None => []
  end.

(** The module imports [mammoth] at load time, so the name is bound and
    the [mammoth is None] guard never fires. *)
Definition convert_docx_to_markdown (p : Path) : str :=
  match path_mammoth p with
  | Some value => strip value
  | None => []
  end.

Definition SUFFIX_MD : str := Eval cbv in py ".md".
Definition SUFFIX_DOCX : str := Eval cbv in py ".docx".
Definition SUFFIX_DOC : str := Eval cbv in py ".doc".

Definition load_markdown_from_file (p : Path) : str :=
  let ext := lower (suffix (path_name p)) in
  if str_eqb ext SUFFIX_MD then
    match path_read_text p with
    | Some text => strip text
    | None => []
    end
  else if str_eqb ext SUFFIX_DOCX || str_eqb ext SUFFIX_DOC then
    convert_docx_to_markdown p
  else [].

(** The generator, as the list of what it yields, in order. *)
Fixpoint iter_member_reports_in (entries : list Path)
  : list (str * str * Path) :=
  match entries with
  | [] => []
  | p :: rest =>
      if negb (path_is_file p) then iter_member_reports_in rest
      else
        match MEMBER_REPORT_REGEX_match (path_name p) with
        | None => iter_member_reports_in rest
        | Some m =>
            (group_name m, group_date m, p) :: iter_member_reports_in rest
        end
  end.

Definition iter_member_reports (folder : Folder) : list (str * str * Path) :=
  iter_member_reports_in (glob_star folder).

(* ================================================================= *)
(** ** Example weeks *)

Record ExampleWeek := {
  date : str;
  member_reports : list str;
  team_report : str
}.

(** [f"# {name}\n\n{text}"]. *)
Definition member_chunk (name text : str) : str :=
  py "# " ++ name ++ nl ++ nl ++ text.

(** A [dict] keeps its keys in insertion order, and the program iterates
    over it: an association list with one pair per key. *)
Definition Dict (V : Type) := list (str * V).

Fixpoint dict_get {V} (d : Dict V) (k : str) : option V :=
  match d with
  | [] => None
  | (k', v) :: rest => if str_eqb k' k then Some v else dict_get rest k
  end.

(** [d.setdefault(k, []).append(x)]. *)
Fixpoint setdefault_append (d : Dict (list str)) (k x : str)
  : Dict (list str) :=
  match d with
  | [] => [(k, [x])]
  | (k', xs) :: rest =>
      if str_eqb k' k then (k', xs ++ [x]) :: rest
      else (k', xs) :: setdefault_append rest k x
  end.

(** The first loop of [collect_examples]: one step per yielded report. *)
Definition by_date_step (by_date : Dict (list str)) (r : str * str * Path)
  : Dict (list str) :=
  let '(name, date, path) := r in
  let text := load_markdown_from_file path in
  if negb (truthy text) then by_date
  else setdefault_append by_date date (member_chunk name text).

Definition group_by_date (reports : list (str * str * Path))
  : Dict (list str) :=
  fold_left by_date_step reports [].

(** [[p for p in examples_dir.glob("*")
      if p.is_file() and TEAM_REPORT_HINT in p.name]]. *)
Definition team_candidates_of (entries : list Path) : list Path :=
  filter (fun p => path_is_file p && contains TEAM_REPORT_HINT (path_name p))
         entries.

(** The [for cand in team_candidates] loop: [team_text] when it ends,
    either at the [break] or after the last candidate. *)
Fixpoint first_dated_candidate_text (date : str) (cands : list Path) : str :=
  match cands with
  | [] => []
  | cand :: rest =>
      if contains date (path_name cand) then load_markdown_from_file cand
      else first_dated_candidate_text date rest
  end.

(** [team_text] after the fallback to [team_candidates[0]]. *)
Definition select_team_text (date : str) (team_candidates : list Path) : str :=
  let team_text := first_dated_candidate_text date team_candidates in
  match team_candidates with
  | first :: _ =>
      if negb (truthy team_text) then load_markdown_from_file first
      else team_text
  | [] => team_text
  end.

(** The second loop of [collect_examples], over [by_date.items()]. *)
Fixpoint weeks_of (by_date : Dict (list str)) (team_candidates : list Path)
  : list ExampleWeek :=
  match by_date with
  | [] => []
  | (date, member_chunks) :: rest =>
      let team_text := select_team_text date team_candidates in
      if truthy team_text then
        {| date := date; member_reports := member_chunks;
           team_report := team_text |} :: weeks_of rest team_candidates
      else weeks_of rest team_candidates
  end.

Definition collect_examples (examples_dir : Folder) : list ExampleWeek :=
  match examples_dir with
  | None => []
  | Some entries =>
      let by_date := group_by_date (iter_member_reports examples_dir) in
      let team_candidates := team_candidates_of entries in
      weeks_of by_date team_candidates
  end.

(** The inner loop of the merge: [existing.member_reports] and the set
    [seen], for each [mr] of the incoming week. *)
Fixpoint append_unseen (existing seen : list str) (incoming : list str)
  : list str * list str :=
  match incoming with
  | [] => (existing, seen)
  | mr :: rest =>
      if existsb (str_eqb mr) seen then append_unseen existing seen rest
      else append_unseen (existing ++ [mr]) (mr :: seen) rest
  end.

(** The [else] branch: the entry already in [merged], updated with [w]. *)
Definition merge_into (existing w : ExampleWeek) : ExampleWeek :=
  let seen := member_reports existing in
  let reports := fst (append_unseen (member_reports existing) seen
                                    (member_reports w)) in
  {| date := date existing;
     member_reports := reports;
     team_report :=
       if negb (truthy (team_report existing)) && truthy (team_report w)
       then team_report w else team_report existing |}.

(** One step of the merge loop on the dictionary [merged]. *)
Fixpoint merge_week (merged : Dict ExampleWeek) (w : ExampleWeek)
  : Dict ExampleWeek :=
  match merged with
  | [] =>
      [(date w, {| date := date w; member_reports := member_reports w;
                   team_report := team_report w |})]
  | (k, existing) :: rest =>
      if str_eqb k (date w) then (k, merge_into existing w) :: rest
      else (k, existing) :: merge_week rest w
  end.

Definition merge_dir (merged : Dict ExampleWeek) (weeks : list ExampleWeek)
  : Dict ExampleWeek :=
  fold_left merge_week weeks merged.

Definition merge_all (per_dir : list (list ExampleWeek)) : Dict ExampleWeek :=
  fold_left merge_dir per_dir [].

Definition collect_examples_from_dirs (example_dirs : list Folder)
  : list ExampleWeek :=
  match example_dirs with
  | [] => []
  | _ => map snd (merge_all (map collect_examples example_dirs))
  end.

(* ================================================================= *)
(** ** Prompt assembly *)

(** [sorted(weeks, key=lambda w: w.date, reverse=True)]: the sort is
    stable, also with [reverse=True], so weeks with equal dates keep
    their order; a stable insertion sort gives the same list. *)
Fixpoint insert_desc (w : ExampleWeek) (sorted : list ExampleWeek)
  : list ExampleWeek :=
  match sorted with
  | [] => [w]
  | x :: rest =>
      if str_ltb (date w) (date x) then x :: insert_desc w rest
      else w :: sorted
  end.

Fixpoint sorted_by_date_desc (weeks : list ExampleWeek) : list ExampleWeek :=
  match weeks with
  | [] => []
  | w :: rest => insert_desc w (sorted_by_date_desc rest)
  end.

Definition example_block (w : ExampleWeek) : str :=
  py "<EXAMPLE_WEEK date=" ++ date w ++ py ">" ++ nl
  ++ py "<INPUT>" ++ nl
  ++ join nl (member_reports w) ++ nl
  ++ py "</INPUT>" ++ nl
  ++ py "<OUTPUT>" ++ nl
  ++ team_report w ++ nl
  ++ py "</OUTPUT>" ++ nl
  ++ py "</EXAMPLE_WEEK>".

Definition build_few_shot_examples (weeks : list ExampleWeek) : str :=
  match weeks with
  | [] => []
  | _ =>
      let weeks_sorted := sorted_by_date_desc weeks in
      join (nl ++ nl) (map example_block weeks_sorted)
  end.

Definition intro : str :=
  py "You are an assistant that aggregates individual weekly engineering reports into a concise, well-structured department report. "
  ++ py "Summarize achievements, ongoing work, issues/risks, metrics, and next week plan. Keep factual, merge duplicates, and preserve important numbers."
  ++ nl.

Definition instructions : str :=
  py "Format sections based on projects' name."
  ++ py "Plz try to keep projects consistent between examples and new report."
  ++ py "'BONY觸控一體機','得鑫螺絲','得鑫螺絲HMI','EBONY觸控一體機'... 都屬於'螺絲案'的一部份。"
  ++ py "'Resymot', 'Resymot GUI', 'iMotion-XYZ控制器'... 都屬於'iMotion-3dof'的一部份。"
  ++ py "'育成計畫', '新人訓練'... 都屬於'教育訓練'的一部份。"
  ++ py "Use bullet points; group similar items.".

(** [f"<REPORT index={i}>\n{txt}\n</REPORT>"]. *)
Definition report_block (i : nat) (txt : str) : str :=
  py "<REPORT index=" ++ str_of_nat i ++ py ">" ++ nl
  ++ txt ++ nl ++ py "</REPORT>".

(** [enumerate(member_markdowns, start)] mapped to the blocks. *)
Fixpoint report_blocks (start : nat) (member_markdowns : list str)
  : list str :=
  match member_markdowns with
  | [] => []
  | txt :: rest => report_block start txt :: report_blocks (S start) rest
  end.

Definition FEW_SHOT_HEADER : str := Eval cbv in py "FEW-SHOT EXAMPLES:".

Definition build_prompt (member_markdowns : list str) (examples_block : str)
  : str :=
  let input_block := join (nl ++ nl) (report_blocks 1 member_markdowns) in
  (intro ++ instructions ++ nl)
  ++ (if truthy examples_block
      then nl ++ FEW_SHOT_HEADER ++ nl ++ examples_block ++ nl
      else [])
  ++ (nl ++ py "TARGET INPUT:" ++ nl ++ input_block ++ nl ++ nl
      ++ py "Generate the consolidated department weekly report in markdown now.").

Definition gather_member_markdowns (source_dir : Folder) : list str :=
  flat_map
    (fun r : str * str * Path =>
       let '(name, _, path) := r in
       let text := load_markdown_from_file path in
       if negb (truthy text) then [] else [member_chunk name text])
    (iter_member_reports source_dir).

(* ================================================================= *)
(** ** The model call and the runner *)

(** The values a response of the model client is made of: [resp] is
    typed [Any] and read both by attribute and by key. *)
#[local] Set Warnings "-register-all".
Inductive pyval :=
| PNone
| PStr (s : str)
| PList (items : list pyval)
| PDict (items : list (str * pyval))
| PObj (attrs : list (str * pyval)).

(** What can be raised along the run.  [Raised] comes out of the awaited
    request; its flag tells whether the class derives from [Exception]
    ([KeyboardInterrupt], [SystemExit] and [asyncio.CancelledError] do
    not).  The others are the [TypeError], [KeyError] or [IndexError]
    of [choices[0]], the [TypeError] of [write_text] on a value that is
    not a [str], and the [OSError] or [UnicodeEncodeError] of a
    [write_text] that fails (no such directory, no permission, text that
    cannot be encoded). *)
Inductive exn :=
| Raised (derives_Exception : bool) (id : N)
| SubscriptError (subject : pyval)
| WriteTypeError (data : pyval)
| WriteFailed (id : N).

Definition is_Exception (e : exn) : bool :=
  match e with
  | Raised b _ => b
  | SubscriptError _ => true
  | WriteTypeError _ => true
  | WriteFailed _ => true
  end.

Inductive stream := Stdout | Stderr.

(** What the process does to the outside, in order; [WriteText] is the
    call [out_path.write_text(data)] on a [str], which may still fail. *)
Inductive event :=
| Print (to : stream) (text : str)
| Acompletion (temperature : spec_float) (model prompt : str)
              (max_tokens : Z)
| WriteText (path data : str).

(** What the program takes from the interpreter, its libraries and the
    machine: the environment after [load_dotenv()], the builtin [float],
    the model client, [traceback.format_exc], the folders on disk,
    [str(Path(s))], and whether writing a text to a path fails ([None]
    when it succeeds, the error when it raises). *)
Record Runtime := {
  getenv : str -> option str;
  float_of_str : str -> option spec_float;
  acompletion : spec_float -> str -> str -> Z -> exn + pyval;
  format_exc : exn -> str;
  folder_at : str -> Folder;
  fspath : str -> str;
  write_fails : str -> str -> option N
}.

(** Computations that print, call the model, write and may raise. *)
Definition Run (A : Type) : Type := list event * (exn + A).

Definition ret {A} (a : A) : Run A := ([], inr a).
Definition raise {A} (e : exn) : Run A := ([], inl e).
Definition emit (ev : event) : Run unit := ([ev], inr tt).
Definition bind {A B} (m : Run A) (k : A -> Run B) : Run B :=
  match m with
  | (tr, inl e) => (tr, inl e)
  | (tr, inr a) => let '(tr', r) := k a in (tr ++ tr', r)
  end.

Notation "x <- m ;; k" := (bind m (fun x => k))
  (at level 61, m at next level, right associativity).
Notation "m ;;; k" := (bind m (fun _ => k))
  (at level 61, right associativity).

Definition trace {A} (m : Run A) : list event := fst m.
Definition outcome {A} (m : Run A) : exn + A := snd m.

(** [0.0], [0.5] and [1.0] as binary64 numbers. *)
Definition f_zero : spec_float := S754_zero false.
Definition f_half : spec_float := S754_finite false 4503599627370496 (-53).
Definition f_one : spec_float := S754_finite false 4503599627370496 (-52).

(** [min(a, b)] and [max(a, b)] of two arguments: the first one unless
    the second is strictly smaller (larger). *)
Definition py_min (a b : spec_float) : spec_float :=
  if SFltb b a then b else a.
Definition py_max (a b : spec_float) : spec_float :=
  if SFltb a b then b else a.

Definition ENV_TEMPERATURE : str := Eval cbv in py "TEMPERATURE".

Definition _parse_temperature (rt : Runtime) : spec_float :=
  match getenv rt ENV_TEMPERATURE with
  | None => f_half
  | Some val =>
      match float_of_str rt val with
      | None => f_half
      | Some t =>
          if negb (SFeqb t t) then f_half
          else py_max f_zero (py_min f_one t)
      end
  end.

(** [getattr(o, name, None)] for the names the program asks for; none of
    them is an attribute of a [str], [list] or [dict]. *)
Definition getattr (o : pyval) (name : str) : pyval :=
  match o with
  | PObj attrs =>
      match dict_get attrs name with Some v => v | None => PNone end
  | _ => PNone
  end.

Definition is_None (v : pyval) : bool :=
  match v with PNone => true | _ => false end.

Definition isinstance_dict (v : pyval) : bool :=
  match v with PDict _ => true | _ => false end.

(** [d.get(key)]. *)
Definition dict_get_value (d : pyval) (key : str) : pyval :=
  match d with
  | PDict items =>
      match dict_get items key with Some v => v | None => PNone end
  | _ => PNone
  end.

(** Truth value: [None] and empty containers are false, an object is
    true. *)
Definition pytruthy (v : pyval) : bool :=
  match v with
  | PNone => false
  | PStr s => truthy s
  | PList [] => false
  | PList (_ :: _) => true
  | PDict [] => false
  | PDict (_ :: _) => true
  | PObj _ => true
  end.

(** [v[0]]. *)
Definition getitem0 (v : pyval) : Run pyval :=
  match v with
  | PList (x :: _) => ret x
  | PStr (c :: _) => ret (PStr [c])
  | _ => raise (SubscriptError v)
  end.

(** Attribute first, then key when the value is a [dict]. *)
Definition attr_or_key (o : pyval) (name : str) : pyval :=
  let v := getattr o name in
  if is_None v && isinstance_dict o then dict_get_value o name else v.

Definition K_choices : str := Eval cbv in py "choices".
Definition K_message : str := Eval cbv in py "message".
Definition K_content : str := Eval cbv in py "content".

(** The body of the [try] block of [call_llm]. *)
Definition call_llm_try (rt : Runtime) (model prompt : str) (max_tokens : Z)
  : Run pyval :=
  let temperature := _parse_temperature rt in
  emit (Acompletion temperature model prompt max_tokens) ;;;
  resp <- ([], acompletion rt temperature model prompt max_tokens) ;;
  let choices := attr_or_key resp K_choices in
  if negb (pytruthy choices) then ret PNone
  else
    first <- getitem0 choices ;;
    let message := attr_or_key first K_message in
    if negb (pytruthy message) then ret PNone
    else
      let content := attr_or_key message K_content in
      ret content.

(** ["error occurred: "], the start of the [f"error occurred: {...}"]
    message. *)
Definition ERROR_OCCURRED : str := Eval cbv in py "error occurred: ".

(** [call_llm]: [except Exception] prints the traceback with [print] and
    returns [None]; anything that does not derive from [Exception] goes
    through. *)
Definition call_llm (rt : Runtime) (model prompt : str) (max_tokens : Z)
  : Run pyval :=
  match call_llm_try rt model prompt max_tokens with
  | (tr, inr v) => (tr, inr v)
  | (tr, inl e) =>
      if is_Exception e
      then (tr ++ [Print Stdout (ERROR_OCCURRED ++ format_exc rt e)],
            inr PNone)
      else (tr, inl e)
  end.

Record Args := {
  source : str;
  examples : list str;
  model : str;
  out : str;
  max_tokens : Z;
  dry_run : bool
}.

(** [Path.write_text(data, encoding="utf-8")]: a [TypeError] unless
    [data] is a [str]; on a [str] the file is opened and written, which
    raises when the runtime says so. *)
Definition write_text (rt : Runtime) (path : str) (data : pyval) : Run unit :=
  match data with
  | PStr s =>
      emit (WriteText path s) ;;;
      match write_fails rt path s with
      | None => ret tt
      | Some id => raise (WriteFailed id)
      end
  | _ => raise (WriteTypeError data)
  end.

(** [f"Report written to {out_path}"]. *)
Definition REPORT_WRITTEN_TO : str := Eval cbv in py "Report written to ".

Definition completion_message (rt : Runtime) (out_path : str) : str :=
  REPORT_WRITTEN_TO ++ fspath rt out_path.

Definition _run (rt : Runtime) (args : Args) (prompt : str) : Run unit :=
  report_md <- call_llm rt (model args) prompt (max_tokens args) ;;
  let out_path := out args in
  (if pytruthy report_md then write_text rt out_path report_md
   else ret tt) ;;;
  emit (Print Stdout (completion_message rt out_path)).

(** How the process ends: normally, by [SystemExit] with a message, or on
    an exception nobody caught. *)
Inductive exit := Completed | SystemExit (msg : str) | Uncaught (e : exn).

(** The prompt the runner builds once the source folder has reports. *)
Definition prompt_of (rt : Runtime) (args : Args) (member_markdowns : list str)
  : str :=
  let examples_dirs := map (folder_at rt) (examples args) in
  let examples := collect_examples_from_dirs examples_dirs in
  let examples_block := build_few_shot_examples examples in
  build_prompt member_markdowns examples_block.

(** The [if __name__ == "__main__":] block. *)
Definition main (rt : Runtime) (args : Args) : list event * exit :=
  let source_dir := folder_at rt (source args) in
  match source_dir with
  | None =>
      ([], SystemExit (py "Source folder not found: " ++ fspath rt (source args)))
  | Some _ =>
      let member_markdowns := gather_member_markdowns source_dir in
      match member_markdowns with
      | [] => ([], SystemExit (py "No valid member reports found in source folder."))
      | _ :: _ =>
          let prompt := prompt_of rt args member_markdowns in
          let printed := if dry_run args then [Print Stdout prompt] else [] in
          match _run rt args prompt with
          | (tr, inr _) => (printed ++ tr, Completed)
          | (tr, inl e) => (printed ++ tr, Uncaught e)
          end
      end
  end.

(* ================================================================= *)
(** ** The credential check *)

Definition API_KEY_VARS : list str :=
  Eval cbv in
    [py "GOOGLE_API_KEY"; py "GEMINI_API_KEY"; py "OPENAI_API_KEY";
     py "ANTHROPIC_API_KEY"; py "AZURE_OPENAI_API_KEY"; py "GROQ_API_KEY"].

Definition NO_API_KEY : str :=
  Eval cbv in
    py "No provider API key env var found (e.g., GOOGLE_API_KEY for Gemini). Set one before running.".

(** [any(os.getenv(k) for k in [...])]: a variable counts when it is set
    to a non-empty string.  The result is [None] when the function
    returns and the message of the [RuntimeError] when it raises. *)
Definition ensure_api_key_present (rt : Runtime) : option str :=
  if existsb
       (fun k => match getenv rt k with
                 | Some v => truthy v
                 | None => false
                 end)
       API_KEY_VARS
  then None
  else Some NO_API_KEY.

(* ================================================================= *)
(** ** Notions used to state the properties *)

(** The naming convention as the specification words it:
    [<name>工作報告-<8-digit-date>.<docx|doc|md>]. *)
Definition report_file_name (name date ext : str) : str :=
  name ++ REPORT_MARK ++ date ++ [46] ++ ext.

Definition named_as_report (fname name date ext : str) : Prop :=
  fname = report_file_name name date ext
  /\ name <> []
  /\ length date = 8%nat
  /\ forallb isascii_digit date = true
  /\ In ext EXT_ALTERNATIVES.

(** What the compiled pattern accepts: the name is free of newlines, the
    digits are any Unicode decimal digits, and one newline may follow the
    extension. *)
Definition accepted_by_pattern (fname name date ext : str) : Prop :=
  exists z,
    fname = report_file_name name date ext ++ z
    /\ name <> []
    /\ forallb dot_matches name = true
    /\ length date = 8%nat
    /\ forallb isdecimal date = true
    /\ In ext EXT_ALTERNATIVES
    /\ (z = [] \/ z = nl).

Definition matches_pattern (p : Path) : bool :=
  match MEMBER_REPORT_REGEX_match (path_name p) with
  | Some _ => true
  | None => false
  end.

(** Two file names on which the pattern and the convention part ways. *)
Definition name_with_trailing_newline : str :=
  Eval cbv in py "A工作報告-20240101.md" ++ nl.
Definition name_with_inner_newline : str :=
  Eval cbv in py "A" ++ nl ++ py "B工作報告-20240101.md".

Definition plain_file (fname text : str) : Path :=
  {| path_name := fname; path_is_file := true;
     path_read_text := Some text; path_mammoth := None |}.

(** The weeks of a list that carry a given date, in order. *)
Definition dated (d : str) (weeks : list ExampleWeek) : list ExampleWeek :=
  filter (fun w => str_eqb (date w) d) weeks.

(** The first non-empty string of a list, the empty string when there is
    none. *)
Fixpoint first_truthy (texts : list str) : str :=
  match texts with
  | [] => []
  | t :: rest => if truthy t then t else first_truthy rest
  end.

(** Appending, in order, every chunk that is not yet present. *)
Definition add_new (existing incoming : list str) : list str :=
  fold_left
    (fun acc mr => if existsb (str_eqb mr) acc then acc else acc ++ [mr])
    incoming existing.

(** All weeks of all directories, in directory order. *)
Definition weeks_in_order (example_dirs : list Folder) : list ExampleWeek :=
  concat (map collect_examples example_dirs).

(** What the merge makes of the weeks of one date: [w0] is the first of
    them in directory order, [later] the others. *)
Definition merged_week (w0 : ExampleWeek) (later : list ExampleWeek)
  : ExampleWeek :=
  {| date := date w0;
     member_reports :=
       add_new (member_reports w0) (concat (map member_reports later));
     team_report := first_truthy (map team_report (w0 :: later)) |}.

Definition converted_file (fname value : str) : Path :=
  {| path_name := fname; path_is_file := true;
     path_read_text := None; path_mammoth := Some value |}.

(** A directory in which one member's report exists twice, as [.md] and
    as [.doc], with the same text, and a second directory for the same
    week. *)
Definition twice_dir : Folder :=
  Some [plain_file (py "A工作報告-20240101.md") (py "T");
        converted_file (py "A工作報告-20240101.doc") (py "T");
        plain_file (py "部門之工作報告.md") (py "R")].

Definition other_dir : Folder :=
  Some [plain_file (py "B工作報告-20240101.md") (py "U");
        plain_file (py "A工作報告-20240101.md") (py "T");
        plain_file (py "部門之工作報告.md") (py "S")].

(** A third directory for the same week, with two reports the first one
    lacks, listed as C then B. *)
Definition later_dir : Folder :=
  Some [plain_file (py "C工作報告-20240101.md") (py "V");
        plain_file (py "B工作報告-20240101.md") (py "U");
        plain_file (py "A工作報告-20240101.md") (py "T");
        plain_file (py "部門之工作報告.md") (py "S")].

(** The chunks the first loop of [collect_examples] files under a date:
    those of the yielded reports of that date whose text is not empty. *)
Definition chunks_of (d : str) (reports : list (str * str * Path))
  : list str :=
  flat_map
    (fun r : str * str * Path =>
       let '(name, date, path) := r in
       if str_eqb date d && truthy (load_markdown_from_file path)
       then [member_chunk name (load_markdown_from_file path)]
       else [])
    reports.

(** A directory with two department reports for one week, and one in
    which the first dated department report has no text. *)
Definition two_team_reports_dir : Folder :=
  Some [plain_file (py "X之工作報告-20231225.md") (py "T1");
        plain_file (py "部門之工作報告-20231225.md") (py "T2")].

Definition empty_dated_candidate_dir : list Path :=
  [plain_file (py "Alice工作報告-20231225.md") (py "hello");
   plain_file (py "部門之工作報告.md") (py "F");
   plain_file (py "組之工作報告20231225.md") [];
   plain_file (py "科之工作報告20231225.md") (py "L")].

(** The number an all-digit string denotes. *)
Fixpoint date_number (s : str) : N :=
  match s with
  | [] => 0
  | c :: r => (c - 48) * 10 ^ N.of_nat (length r) + date_number r
  end.

(** Orders on weeks by date: not earlier than, and strictly later than. *)
Definition not_before (a b : ExampleWeek) : Prop :=
  str_ltb (date a) (date b) = false.
Definition after (a b : ExampleWeek) : Prop :=
  str_ltb (date b) (date a) = true.

(** Two weeks of the same date. *)
Definition week_a : ExampleWeek :=
  {| date := py "20240101"; member_reports := [py "a"];
     team_report := py "ra" |}.
Definition week_b : ExampleWeek :=
  {| date := py "20240101"; member_reports := [py "b"];
     team_report := py "rb" |}.

(** [clash h t]: [h] and [t] differ at a position both have, so [h] is
    no prefix of [t] followed by anything.  [all_clash h l]: this holds
    for every non-empty suffix of [l], so no occurrence of [h] starts
    inside [l], whatever follows [l]. *)
Fixpoint clash (h t : str) : bool :=
  match h, t with
  | x :: h', y :: t' => if x =? y then clash h' t' else true
  | _, _ => false
  end.

Fixpoint all_clash (h l : str) : bool :=
  match l with
  | [] => true
  | _ :: r => clash h l && all_clash h r
  end.

Definition TRACEBACK : str :=
  Eval cbv in py "Traceback (most recent call last): ...".

(** A runtime with an empty environment, no folders, and a model client
    that always answers with [result]; then one with folders and a
    temperature. *)
Definition rt_answering (result : exn + pyval) : Runtime :=
  {| getenv := fun _ => None;
     float_of_str := fun _ => None;
     acompletion := fun _ _ _ _ => result;
     format_exc := fun _ => TRACEBACK;
     folder_at := fun _ => None;
     fspath := fun s => s;
     write_fails := fun _ _ => None |}.

(** The same with an output path that cannot be written. *)
Definition rt_unwritable (result : exn + pyval) : Runtime :=
  {| getenv := fun _ => None;
     float_of_str := fun _ => None;
     acompletion := fun _ _ _ _ => result;
     format_exc := fun _ => TRACEBACK;
     folder_at := fun _ => None;
     fspath := fun s => s;
     write_fails := fun _ _ => Some 2 |}.

(** [2.0] as a binary64 number. *)
Definition f_two : spec_float := S754_finite false 4503599627370496 (-51).

Definition scenario_source : Folder :=
  Some [plain_file (py "Alice工作報告-20240101.md") (py "did things");
        converted_file (py "Bob工作報告-20240101.docx") (py "did more")].

Definition scenario_examples : Folder :=
  Some [plain_file (py "Alice工作報告-20231225.md") (py "hello");
        plain_file (py "部門之工作報告-20231225.md") (py "team")].

Definition rt_scenario (result : exn + pyval) : Runtime :=
  {| getenv := fun k =>
       if str_eqb k ENV_TEMPERATURE then Some (py "2.0") else None;
     float_of_str := fun _ => Some f_two;
     acompletion := fun _ _ _ _ => result;
     format_exc := fun _ => TRACEBACK;
     folder_at := fun s =>
       if str_eqb s (py "src") then scenario_source
       else if str_eqb s (py "ex") then scenario_examples
       else None;
     fspath := fun s => s;
     write_fails := fun _ _ => None |}.

Definition scenario_args (dry : bool) : Args :=
  {| source := py "src"; examples := [py "ex"]; model := py "m";
     out := py "department_report.md"; max_tokens := 2000; dry_run := dry |}.

(** A response in the mapping style, with and without a content. *)
Definition response_with (content : pyval) : pyval :=
  PDict [(K_choices,
          PList [PDict [(K_message, PDict [(K_content, content)])]])].

Definition response_without_content : pyval :=
  PObj [(K_choices,
         PList [PObj [(K_message, PObj [(py "role", PStr (py "assistant"))])]])].

Definition with_dry_run (b : bool) (args : Args) : Args :=
  {| source := source args; examples := examples args; model := model args;
     out := out args; max_tokens := max_tokens args; dry_run := b |}.

Definition is_Acompletion (ev : event) : bool :=
  match ev with Acompletion _ _ _ _ => true | _ => false end.

(** What [gather_member_markdowns] returns on [scenario_source]. *)
Definition scenario_first : str :=
  Eval vm_compute in member_chunk (py "Alice") (py "did things").
Definition scenario_rest : list str :=
  Eval vm_compute in [member_chunk (py "Bob") (py "did more")].

Definition week_c : ExampleWeek :=
  {| date := py "20231225"; member_reports := [py "c"];
     team_report := py "rc" |}.

(** A directory with reports of two weeks and only an undated
    department report. *)
Definition undated_team_dir : list Path :=
  [plain_file (py "Alice工作報告-20231218.md") (py "w1");
   plain_file (py "Alice工作報告-20231225.md") (py "w2");
   plain_file (py "部門之工作報告.md") (py "F")].

(** The two shapes of the parts of a response: an object read by
    attribute or a [dict] read by key. *)
Inductive style := ByAttribute | ByKey.

Definition container (s : style) (fields : list (str * pyval)) : pyval :=
  match s with
  | ByAttribute => PObj fields
  | ByKey => PDict fields
  end.

(** The runtime with another environment. *)
Definition with_getenv (env : str -> option str) (rt : Runtime) : Runtime :=
  {| getenv := env;
     float_of_str := float_of_str rt;
     acompletion := acompletion rt;
     format_exc := format_exc rt;
     folder_at := folder_at rt;
     fspath := fspath rt;
     write_fails := write_fails rt |}.

(** An environment that holds a temperature and no API key at all. *)
Definition env_without_keys (k : str) : option str :=
  if str_eqb k ENV_TEMPERATURE then Some (py "2.0") else None.

(* ================================================================= *)
(** * Properties *)

(** ** Strings *)

Lemma str_eqb_eq (a b : str) : str_eqb a b = true <-> a = b.
Proof.
  revert b; induction a as [|x a IH]; intros [|y b]; simpl; split;
    try discriminate; try reflexivity.
  - intros H. apply andb_true_iff in H as [Hx Hr].
    apply N.eqb_eq in Hx. apply IH in Hr. congruence.
  - intros H. injection H as -> ->. rewrite N.eqb_refl. simpl.
    now apply IH.
Qed.

Lemma str_eqb_refl (a : str) : str_eqb a a = true.
Proof. now apply str_eqb_eq. Qed.

Lemma str_eqb_neq (a b : str) : str_eqb a b = false <-> a <> b.
Proof.
  split.
  - intros H E. apply str_eqb_eq in E. congruence.
  - intros H. destruct (str_eqb a b) eqn:E; [|reflexivity].
    apply str_eqb_eq in E. contradiction.
Qed.

Lemma str_eqb_sym (a b : str) : str_eqb a b = str_eqb b a.
Proof.
  destruct (str_eqb a b) eqn:E.
  - apply str_eqb_eq in E. subst. symmetry. apply str_eqb_refl.
  - symmetry. apply str_eqb_neq. apply str_eqb_neq in E. congruence.
Qed.

Lemma existsb_str_eqb (x : str) (l : list str) :
  existsb (str_eqb x) l = true <-> In x l.
Proof.
  rewrite existsb_exists. split.
  - intros [y [Hy E]]. apply str_eqb_eq in E. now subst.
  - intros H. exists x. split; [assumption | apply str_eqb_refl].
Qed.

Lemma truthy_true (s : str) : truthy s = true <-> s <> [].
Proof. destruct s; simpl; split; congruence. Qed.

Lemma truthy_false (s : str) : truthy s = false <-> s = [].
Proof. destruct s; simpl; split; congruence. Qed.

Lemma strip_prefix_Some (p s z : str) :
  strip_prefix p s = Some z <-> s = p ++ z.
Proof.
  revert s; induction p as [|x p IH]; intros s; simpl.
  - split; congruence.
  - destruct s as [|y s]; [split; discriminate|].
    destruct (N.eqb_spec x y) as [->|Hne].
    + rewrite IH. split; congruence.
    + split; [discriminate | congruence].
Qed.

(** ** The member-report pattern *)

Lemma digits_sound (n : nat) (s d z : str) :
  digits n s = Some (d, z) ->
  s = d ++ z /\ length d = n /\ forallb isdecimal d = true.
Proof.
  revert s d z; induction n as [|n IH]; intros s d z; simpl.
  - intros H. injection H as <- <-. auto.
  - destruct s as [|c r]; [discriminate|].
    destruct (isdecimal c) eqn:Hc; [|discriminate].
    destruct (digits n r) as [[d' z']|] eqn:Hd; [|discriminate].
    intros H. injection H as <- <-.
    apply IH in Hd as (-> & Hl & Hall). simpl. rewrite Hc, Hall, Hl. auto.
Qed.

Lemma digits_complete (d z : str) :
  forallb isdecimal d = true -> digits (length d) (d ++ z) = Some (d, z).
Proof.
  induction d as [|c d IH]; simpl; [reflexivity|].
  intros H. apply andb_true_iff in H as [Hc Hall].
  rewrite Hc, (IH Hall). reflexivity.
Qed.

Lemma at_end_true (z : str) : at_end z = true <-> z = [] \/ z = nl.
Proof.
  destruct z as [|c [|c' z]]; simpl; split; auto; try discriminate.
  - intros H. apply N.eqb_eq in H. subst. now right.
  - intros [H|H]; [discriminate|]. injection H as ->. reflexivity.
  - intros [H|H]; discriminate.
Qed.

Lemma alternatives_sound (alts : list str) (s e : str) :
  alternatives_then_end alts s = Some e ->
  In e alts /\ exists z, s = e ++ z /\ at_end z = true.
Proof.
  induction alts as [|a more IH]; simpl; [discriminate|].
  destruct (strip_prefix a s) as [z|] eqn:Hp.
  - destruct (at_end z) eqn:Hz.
    + intros H. injection H as <-. apply strip_prefix_Some in Hp.
      split; [now left | now exists z].
    + intros H. apply IH in H as [Hin Hz']. split; [now right | assumption].
  - intros H. apply IH in H as [Hin Hz']. split; [now right | assumption].
Qed.

Lemma alternatives_complete (e z : str) :
  In e EXT_ALTERNATIVES -> at_end z = true ->
  alternatives_then_end EXT_ALTERNATIVES (e ++ z) = Some e.
Proof.
  intros Hin Hz. apply at_end_true in Hz.
  unfold EXT_ALTERNATIVES in *. simpl in Hin.
  destruct Hin as [<-|[<-|[<-|[]]]]; destruct Hz as [->| ->]; reflexivity.
Qed.

Lemma after_name_sound (t date ext : str) :
  after_name t = Some (date, ext) ->
  exists z, t = REPORT_MARK ++ date ++ [46] ++ ext ++ z
            /\ length date = 8%nat /\ forallb isdecimal date = true
            /\ In ext EXT_ALTERNATIVES /\ (z = [] \/ z = nl).
Proof.
  unfold after_name.
  destruct (strip_prefix REPORT_MARK t) as [s1|] eqn:H1; [|discriminate].
  destruct (digits 8 s1) as [[d s2]|] eqn:H2; [|discriminate].
  destruct s2 as [|c s3]; [discriminate|].
  destruct (N.eqb_spec c 46) as [->|Hc].
  2:{ destruct c as [|q]; [discriminate|].
      do 6 (destruct q as [q|q|]; try discriminate). congruence. }
  change (match 46 with 46 => ?a | _ => ?b end) with a.
  destruct (alternatives_then_end EXT_ALTERNATIVES s3) as [e|] eqn:H3;
    [|discriminate].
  intros H. injection H as <- <-.
  apply strip_prefix_Some in H1. apply digits_sound in H2 as (-> & Hl & Hall).
  apply alternatives_sound in H3 as (Hin & z & -> & Hz).
  exists z. rewrite at_end_true in Hz. subst t. repeat split; auto.
Qed.

Lemma after_name_complete (date ext z : str) :
  length date = 8%nat -> forallb isdecimal date = true ->
  In ext EXT_ALTERNATIVES -> (z = [] \/ z = nl) ->
  after_name (REPORT_MARK ++ date ++ [46] ++ ext ++ z) = Some (date, ext).
Proof.
  intros Hl Hall Hin Hz. unfold after_name.
  assert (H1 : strip_prefix REPORT_MARK
                 (REPORT_MARK ++ date ++ [46] ++ ext ++ z)
               = Some (date ++ [46] ++ ext ++ z))
    by now apply strip_prefix_Some.
  rewrite H1, <- Hl, (digits_complete _ _ Hall).
  change ([46] ++ ext ++ z) with (46 :: (ext ++ z)). cbv beta iota.
  rewrite alternatives_complete; auto. now apply at_end_true.
Qed.

(** The first code point of the mark occurs nowhere else in what follows
    the name, so the name group can end in one place only. *)
Lemma after_name_head (t date ext : str) :
  after_name t = Some (date, ext) ->
  exists t', t = 24037 :: t' /\ ~ In 24037 t'.
Proof.
  intros H. apply after_name_sound in H as (z & -> & Hl & Hall & Hin & Hz).
  eexists. split; [reflexivity|].
  intros Hbad. simpl in Hbad.
  destruct Hbad as [Hbad|[Hbad|[Hbad|[Hbad|Hbad]]]]; try discriminate.
  apply in_app_or in Hbad as [Hbad|Hbad].
  - rewrite forallb_forall in Hall. apply Hall in Hbad.
    vm_compute in Hbad. discriminate.
  - destruct Hbad as [Hbad|Hbad]; [discriminate|].
    apply in_app_or in Hbad as [Hbad|Hbad].
    + unfold EXT_ALTERNATIVES in Hin. simpl in Hin.
      destruct Hin as [<-|[<-|[<-|[]]]]; simpl in Hbad;
        repeat (destruct Hbad as [Hbad|Hbad]; [discriminate|]);
        contradiction.
    + destruct Hz as [->| ->]; simpl in Hbad;
        [contradiction | destruct Hbad as [Hbad|[]]; discriminate].
Qed.

Lemma lazy_name_sound (s taken : str) (m : Match) :
  lazy_name taken s = Some m ->
  exists w t, s = w ++ t /\ w <> [] /\ forallb dot_matches w = true
              /\ group_name m = taken ++ w
              /\ after_name t = Some (group_date m, group_ext m).
Proof.
  revert taken; induction s as [|c r IH]; intros taken; simpl;
    [discriminate|].
  destruct (dot_matches c) eqn:Hc; [|discriminate].
  destruct (after_name r) as [[d e]|] eqn:Ha.
  - intros H. injection H as <-. exists [c], r. simpl. rewrite Hc.
    repeat split; auto. discriminate.
  - intros H. apply IH in H as (w & t & -> & Hw & Hall & Hn & Hafter).
    exists (c :: w), t. simpl. rewrite Hc, Hall, Hn, <- app_assoc.
    repeat split; auto. discriminate.
Qed.

Lemma lazy_name_complete (w t taken date ext : str) :
  w <> [] -> forallb dot_matches w = true ->
  after_name t = Some (date, ext) ->
  lazy_name taken (w ++ t)
  = Some {| group_name := taken ++ w; group_date := date; group_ext := ext |}.
Proof.
  intros Hw Hall Hafter. revert taken.
  induction w as [|c w IH]; [contradiction|]. intros taken. simpl in *.
  apply andb_true_iff in Hall as [Hc Hall]. rewrite Hc.
  destruct w as [|c' w'].
  - simpl. rewrite Hafter. reflexivity.
  - destruct (after_name ((c' :: w') ++ t)) as [[d e]|] eqn:Hbad.
    + exfalso.
      apply after_name_head in Hbad as (u & Hu & Hnot).
      apply after_name_head in Hafter as (t' & -> & _).
      simpl in Hu. injection Hu as _ <-. apply Hnot.
      apply in_or_app. right. now left.
    + rewrite IH; auto; [|discriminate].
      now rewrite <- app_assoc.
Qed.

(** The compiled pattern accepts exactly the names of the form
    [accepted_by_pattern], with the groups as they stand in the name. *)
Lemma MEMBER_REPORT_REGEX_match_spec (fname name date ext : str) :
  MEMBER_REPORT_REGEX_match fname
  = Some {| group_name := name; group_date := date; group_ext := ext |}
  <-> accepted_by_pattern fname name date ext.
Proof.
  unfold MEMBER_REPORT_REGEX_match, accepted_by_pattern, report_file_name.
  split.
  - intros H. apply lazy_name_sound in H as (w & t & -> & Hw & Hall & Hn & Ha).
    cbn [group_name group_date group_ext app] in Hn, Ha. subst w.
    apply after_name_sound in Ha as (z & -> & Hl & Hd & Hin & Hz).
    exists z. split; [now rewrite <- !app_assoc | repeat split; auto].
  - intros (z & -> & Hn & Hall & Hl & Hd & Hin & Hz).
    rewrite <- !app_assoc.
    apply (lazy_name_complete name _ [] date ext Hn Hall).
    now apply after_name_complete.
Qed.

Lemma accepted_by_pattern_unique (fname n1 d1 e1 n2 d2 e2 : str) :
  accepted_by_pattern fname n1 d1 e1 -> accepted_by_pattern fname n2 d2 e2 ->
  n1 = n2 /\ d1 = d2 /\ e1 = e2.
Proof.
  intros H1 H2. apply MEMBER_REPORT_REGEX_match_spec in H1, H2.
  rewrite H1 in H2. injection H2 as -> -> ->. auto.
Qed.

Lemma isascii_digit_isdecimal (c : codepoint) :
  isascii_digit c = true -> isdecimal c = true.
Proof.
  unfold isascii_digit. intros H. apply andb_true_iff in H as [Hlo Hhi].
  apply N.leb_le in Hlo, Hhi. unfold isdecimal, Nd_block_starts.
  cbn [existsb]. apply orb_true_iff. left.
  apply andb_true_iff. split; [apply N.leb_le | apply N.ltb_lt]; lia.
Qed.

Lemma named_as_report_accepted (fname name date ext : str) :
  named_as_report fname name date ext ->
  forallb dot_matches name = true ->
  accepted_by_pattern fname name date ext.
Proof.
  intros (-> & Hn & Hl & Hd & Hin) Hdot. exists []. rewrite app_nil_r.
  repeat split; auto.
  rewrite forallb_forall in *. intros c Hc.
  apply isascii_digit_isdecimal. now apply Hd.
Qed.

Lemma iter_member_reports_in_spec (entries : list Path) (name date : str)
      (p : Path) :
  In (name, date, p) (iter_member_reports_in entries) <->
  In p entries /\ path_is_file p = true
  /\ exists ext, accepted_by_pattern (path_name p) name date ext.
Proof.
  induction entries as [|q rest IH]; simpl.
  - split; [contradiction | now intros [[] _]].
  - destruct (path_is_file q) eqn:Hf; simpl.
    + destruct (MEMBER_REPORT_REGEX_match (path_name q)) as [[n d e]|] eqn:Hm.
      * simpl. rewrite IH. split.
        -- intros [H|(Hin & Hp & Hacc)].
           ++ injection H as <- <- <-. repeat split; auto.
              exists e. now apply MEMBER_REPORT_REGEX_match_spec.
           ++ repeat split; auto.
        -- intros ([<-|Hin] & Hp & ext & Hacc).
           ++ left. apply MEMBER_REPORT_REGEX_match_spec in Hacc.
              rewrite Hm in Hacc. injection Hacc as -> -> ->. reflexivity.
           ++ right. repeat split; auto. now exists ext.
      * rewrite IH. split.
        -- intros (Hin & Hp & Hacc). repeat split; auto.
        -- intros ([<-|Hin] & Hp & ext & Hacc).
           ++ apply MEMBER_REPORT_REGEX_match_spec in Hacc. congruence.
           ++ repeat split; auto. now exists ext.
    + rewrite IH. split.
      * intros (Hin & Hp & Hacc). repeat split; auto.
      * intros ([<-|Hin] & Hp & Hacc); [congruence|]. repeat split; auto.
Qed.

Lemma iter_member_reports_in_paths (entries : list Path) :
  map snd (iter_member_reports_in entries)
  = filter (fun p => path_is_file p && matches_pattern p) entries.
Proof.
  induction entries as [|q rest IH]; simpl; [reflexivity|].
  unfold matches_pattern at 1.
  destruct (path_is_file q); simpl; [|assumption].
  destruct (MEMBER_REPORT_REGEX_match (path_name q)); simpl; congruence.
Qed.

(** X17.  What the code yields, exactly.  [iter_member_reports] yields
    [(name, date, path)] for the regular files of the folder whose name
    is [name ++ "工作報告-" ++ date ++ "." ++ ext], possibly followed by
    one newline, where [name] is non-empty and free of newlines, [date]
    is eight Unicode decimal digits and [ext] is [docx], [doc] or [md];
    the groups are the substrings of the file name, each such file is
    yielded once and in listing order, and no other file is yielded.  A
    name that follows the convention with ASCII digits and a newline-free
    [name] is always accepted. *)
Theorem iter_member_reports_yields_accepted (folder : Folder) :
  (forall name date p,
      In (name, date, p) (iter_member_reports folder) <->
      In p (glob_star folder) /\ path_is_file p = true
      /\ exists ext, accepted_by_pattern (path_name p) name date ext)
  /\ map snd (iter_member_reports folder)
     = filter (fun p => path_is_file p && matches_pattern p)
              (glob_star folder)
  /\ (forall fname name date ext,
         named_as_report fname name date ext ->
         forallb dot_matches name = true ->
         accepted_by_pattern fname name date ext)
  /\ (forall fname n1 d1 e1 n2 d2 e2,
         accepted_by_pattern fname n1 d1 e1 ->
         accepted_by_pattern fname n2 d2 e2 ->
         n1 = n2 /\ d1 = d2 /\ e1 = e2).
Proof.
  unfold iter_member_reports. split; [|split; [|split]].
  - intros name d p. apply iter_member_reports_in_spec.
  - apply iter_member_reports_in_paths.
  - intros fname name d ext. apply named_as_report_accepted.
  - intros fname n1 d1 e1 n2 d2 e2. apply accepted_by_pattern_unique.
Qed.

Lemma report_file_name_last (name date ext : str) :
  In ext EXT_ALTERNATIVES ->
  exists c pre, report_file_name name date ext = pre ++ [c] /\ c <> 10.
Proof.
  unfold report_file_name, EXT_ALTERNATIVES. simpl.
  intros [<-|[<-|[<-|[]]]].
  - exists 120, (name ++ REPORT_MARK ++ date ++ [46; 100; 111; 99]).
    split; [now rewrite <- !app_assoc | discriminate].
  - exists 99, (name ++ REPORT_MARK ++ date ++ [46; 100; 111]).
    split; [now rewrite <- !app_assoc | discriminate].
  - exists 100, (name ++ REPORT_MARK ++ date ++ [46; 109]).
    split; [now rewrite <- !app_assoc | discriminate].
Qed.

(** C1.  The code departs from the naming convention in both
    directions.  The file named ["A工作報告-20240101.md\n"] is yielded
    although no name, date and extension make its name follow the
    convention, because [$] also matches before a final newline; the
    file named ["A\nB工作報告-20240101.md"] follows the convention and
    is not yielded, because [.] does not match a newline. *)
Lemma iter_member_reports_differs_from_convention :
  (iter_member_reports
     (Some [plain_file name_with_trailing_newline (py "x")])
   = [(py "A", py "20240101",
       plain_file name_with_trailing_newline (py "x"))]
   /\ ~ exists name date ext,
         named_as_report name_with_trailing_newline name date ext)
  /\ (named_as_report name_with_inner_newline
                      (py "A" ++ nl ++ py "B") (py "20240101") (py "md")
      /\ iter_member_reports
           (Some [plain_file name_with_inner_newline (py "x")]) = []).
Proof.
  split; split.
  - reflexivity.
  - intros (name & date & ext & Hname & _ & _ & _ & Hin).
    destruct (report_file_name_last name date ext Hin) as (c & pre & E & Hc).
    rewrite E in Hname.
    change name_with_trailing_newline
      with (py "A工作報告-20240101.md" ++ [10]) in Hname.
    apply app_inj_tail in Hname as [_ Hname]. congruence.
  - unfold named_as_report. repeat split.
    + discriminate.
    + unfold EXT_ALTERNATIVES. simpl. auto.
  - reflexivity.
Qed.

(** ** Merging example weeks *)

Lemma append_unseen_add_new (incoming existing seen : list str) :
  (forall x, In x seen <-> In x existing) ->
  fst (append_unseen existing seen incoming) = add_new existing incoming
  /\ (forall x, In x (snd (append_unseen existing seen incoming))
                <-> In x (fst (append_unseen existing seen incoming))).
Proof.
  revert existing seen.
  induction incoming as [|mr rest IH]; intros existing seen Hseen; simpl.
  - auto.
  - assert (E : existsb (str_eqb mr) seen = existsb (str_eqb mr) existing).
    { destruct (existsb (str_eqb mr) existing) eqn:He.
      - apply existsb_str_eqb. apply Hseen. now apply existsb_str_eqb.
      - destruct (existsb (str_eqb mr) seen) eqn:Hs; [|reflexivity].
        apply existsb_str_eqb, Hseen, existsb_str_eqb in Hs. congruence. }
    rewrite E. unfold add_new. simpl.
    destruct (existsb (str_eqb mr) existing).
    + now apply IH.
    + apply IH. intros x. simpl. rewrite in_app_iff, Hseen. simpl. tauto.
Qed.

Lemma add_new_app (existing a b : list str) :
  add_new existing (a ++ b) = add_new (add_new existing a) b.
Proof. unfold add_new. apply fold_left_app. Qed.

Lemma add_new_extends (incoming existing : list str) :
  exists extra,
    add_new existing incoming = existing ++ extra
    /\ NoDup extra
    /\ (forall x, In x extra -> ~ In x existing /\ In x incoming).
Proof.
  revert existing. induction incoming as [|mr rest IH]; intros existing.
  - exists []. rewrite app_nil_r. repeat split; try constructor; contradiction.
  - unfold add_new. simpl. fold (add_new existing rest).
    destruct (existsb (str_eqb mr) existing) eqn:He.
    + destruct (IH existing) as (extra & E & Hnd & Hx).
      exists extra. fold (add_new existing rest). repeat split; auto.
      * now apply Hx.
      * right. now apply Hx.
    + destruct (IH (existing ++ [mr])) as (extra & E & Hnd & Hx).
      exists (mr :: extra). fold (add_new (existing ++ [mr]) rest).
      rewrite E, <- app_assoc. repeat split; auto.
      * constructor; [|assumption]. intros Hin. apply Hx in Hin as [Hin _].
        apply Hin. apply in_or_app. right. now left.
      * destruct H as [<-|Hin].
        -- intros Hin. apply existsb_str_eqb in Hin. congruence.
        -- apply Hx in Hin as [Hin _]. intros Hbad. apply Hin.
           apply in_or_app. now left.
      * destruct H as [<-|Hin]; [now left|]. right. now apply Hx.
Qed.

Lemma add_new_In (incoming existing : list str) (x : str) :
  In x (add_new existing incoming) <-> In x existing \/ In x incoming.
Proof.
  revert existing. induction incoming as [|mr rest IH]; intros existing.
  - simpl. tauto.
  - unfold add_new. simpl.
    destruct (existsb (str_eqb mr) existing) eqn:He.
    + fold (add_new existing rest). rewrite IH.
      apply existsb_str_eqb in He. split; [tauto|].
      intros [H|[<-|H]]; auto.
    + fold (add_new (existing ++ [mr]) rest). rewrite IH, in_app_iff.
      simpl. tauto.
Qed.

Lemma first_truthy_snoc (l : list str) (t : str) :
  first_truthy (l ++ [t])
  = if truthy (first_truthy l) then first_truthy l else t.
Proof.
  induction l as [|x l IH]; simpl.
  - now destruct t.
  - destruct (truthy x) eqn:Hx; [now rewrite Hx | assumption].
Qed.

Lemma merged_week_alone (w : ExampleWeek) :
  merged_week w []
  = {| date := date w; member_reports := member_reports w;
       team_report := team_report w |}.
Proof.
  unfold merged_week. simpl. now destruct (team_report w).
Qed.

Lemma merge_into_merged_week (w0 w : ExampleWeek) (later : list ExampleWeek) :
  merge_into (merged_week w0 later) w = merged_week w0 (later ++ [w]).
Proof.
  unfold merge_into, merged_week. cbn [date member_reports team_report].
  f_equal.
  - rewrite (proj1 (append_unseen_add_new _ _ _ (fun x => iff_refl _))).
    rewrite map_app, concat_app, add_new_app. simpl. now rewrite app_nil_r.
  - change (w0 :: later ++ [w]) with ((w0 :: later) ++ [w]).
    rewrite map_app. change (map team_report [w]) with [team_report w].
    rewrite first_truthy_snoc.
    set (T := first_truthy (map team_report (w0 :: later))).
    destruct (truthy T) eqn:HT; simpl; [reflexivity|].
    destruct (truthy (team_report w)) eqn:Hw; [reflexivity|].
    apply truthy_false in HT, Hw. congruence.
Qed.

Lemma merge_week_get (m : Dict ExampleWeek) (w : ExampleWeek) (d : str) :
  dict_get (merge_week m w) d
  = if str_eqb (date w) d
    then Some match dict_get m d with
              | Some e => merge_into e w
              | None => merged_week w []
              end
    else dict_get m d.
Proof.
  rewrite merged_week_alone.
  induction m as [|[k e] rest IH]; simpl.
  - reflexivity.
  - destruct (str_eqb k (date w)) eqn:Hk; simpl.
    + apply str_eqb_eq in Hk. subst k.
      destruct (str_eqb (date w) d); reflexivity.
    + rewrite IH. destruct (str_eqb k d) eqn:Hkd; [|reflexivity].
      apply str_eqb_eq in Hkd. subst k. now rewrite str_eqb_sym, Hk.
Qed.

Lemma merge_week_keys (m : Dict ExampleWeek) (w : ExampleWeek) :
  map fst (merge_week m w)
  = if existsb (str_eqb (date w)) (map fst m) then map fst m
    else map fst m ++ [date w].
Proof.
  induction m as [|[k e] rest IH]; simpl; [reflexivity|].
  rewrite (str_eqb_sym (date w) k).
  destruct (str_eqb k (date w)); simpl; [reflexivity|].
  rewrite IH. now destruct (existsb (str_eqb (date w)) (map fst rest)).
Qed.

Lemma merge_week_keys_NoDup (m : Dict ExampleWeek) (w : ExampleWeek) :
  NoDup (map fst m) -> NoDup (map fst (merge_week m w)).
Proof.
  intros H. rewrite merge_week_keys.
  destruct (existsb (str_eqb (date w)) (map fst m)) eqn:E; [assumption|].
  apply NoDup_app; [assumption | repeat constructor; auto | ].
  intros x Hx [<-|[]]. apply existsb_str_eqb in Hx. congruence.
Qed.

Lemma dated_snoc (d : str) (ws : list ExampleWeek) (w : ExampleWeek) :
  dated d (ws ++ [w])
  = dated d ws ++ (if str_eqb (date w) d then [w] else []).
Proof. unfold dated. rewrite filter_app. reflexivity. Qed.

(** The dictionary of the merge after the weeks [ws]: one entry per date
    that occurs, holding [merged_week] of the weeks of that date. *)
Lemma merged_get (ws : list ExampleWeek) (d : str) :
  NoDup (map fst (fold_left merge_week ws []))
  /\ dict_get (fold_left merge_week ws []) d
     = match dated d ws with
       | [] => None
       | w0 :: later => Some (merged_week w0 later)
       end.
Proof.
  induction ws as [|w ws IH] using rev_ind.
  - split; [constructor | reflexivity].
  - destruct IH as [Hnd IH]. rewrite fold_left_app. simpl. split.
    + now apply merge_week_keys_NoDup.
    + rewrite merge_week_get, IH, dated_snoc.
      destruct (str_eqb (date w) d) eqn:Hd.
      * destruct (dated d ws) as [|w0 later]; simpl; [reflexivity|].
        now rewrite merge_into_merged_week.
      * rewrite app_nil_r. reflexivity.
Qed.

Lemma merge_all_concat (per_dir : list (list ExampleWeek))
      (m : Dict ExampleWeek) :
  fold_left merge_dir per_dir m = fold_left merge_week (concat per_dir) m.
Proof.
  revert m. induction per_dir as [|ws rest IH]; intros m; simpl.
  - reflexivity.
  - rewrite fold_left_app. apply IH.
Qed.

Lemma collect_examples_from_dirs_eq (example_dirs : list Folder) :
  collect_examples_from_dirs example_dirs
  = map snd (fold_left merge_week (weeks_in_order example_dirs) []).
Proof.
  unfold collect_examples_from_dirs, weeks_in_order, merge_all.
  destruct example_dirs as [|dir rest]; [reflexivity|].
  now rewrite merge_all_concat.
Qed.

Lemma dict_get_In {V} (m : Dict V) (k : str) (v : V) :
  dict_get m k = Some v -> In (k, v) m.
Proof.
  induction m as [|[k' v'] rest IH]; simpl; [discriminate|].
  destruct (str_eqb k' k) eqn:E.
  - apply str_eqb_eq in E. intros H. injection H as ->. subst. now left.
  - intros H. right. now apply IH.
Qed.

Lemma In_dict_get {V} (m : Dict V) (k : str) (v : V) :
  NoDup (map fst m) -> In (k, v) m -> dict_get m k = Some v.
Proof.
  induction m as [|[k' v'] rest IH]; simpl; [contradiction|].
  intros Hnd [H|H].
  - injection H as -> ->. now rewrite str_eqb_refl.
  - inversion Hnd as [|? ? Hk Hrest]; subst.
    destruct (str_eqb k' k) eqn:E.
    + apply str_eqb_eq in E. subst. exfalso. apply Hk.
      now apply (in_map fst) in H.
    + now apply IH.
Qed.

Lemma dict_values_dated (m : Dict ExampleWeek) (d : str) :
  NoDup (map fst m) ->
  (forall k e, In (k, e) m -> date e = k) ->
  dated d (map snd m)
  = match dict_get m d with Some e => [e] | None => [] end.
Proof.
  induction m as [|[k e] rest IH]; intros Hnd Hkey; [reflexivity|].
  simpl in Hnd. apply NoDup_cons_iff in Hnd as [Hk Hrest].
  assert (Hkey' : forall k e, In (k, e) rest -> date e = k)
    by (intros k' e' H; apply Hkey; now right).
  simpl. rewrite (Hkey k e (or_introl eq_refl)), (IH Hrest Hkey').
  destruct (str_eqb k d) eqn:E; [|reflexivity].
  apply str_eqb_eq in E. subst k.
  destruct (dict_get rest d) eqn:G; [|reflexivity].
  apply dict_get_In in G. exfalso. apply Hk. now apply (in_map fst) in G.
Qed.

(** Every entry of the merge dictionary sits under its own date, and the
    values, read as a list, hold exactly one week per date. *)
Lemma merged_values_dated (ws : list ExampleWeek) (d : str) :
  dated d (map snd (fold_left merge_week ws []))
  = match dated d ws with
    | [] => []
    | w0 :: later => [merged_week w0 later]
    end.
Proof.
  destruct (merged_get ws d) as [Hnd Hget].
  rewrite dict_values_dated, Hget; auto.
  - now destruct (dated d ws).
  - intros k e Hin. apply (In_dict_get _ _ _ Hnd) in Hin.
    rewrite (proj2 (merged_get ws k)) in Hin.
    destruct (dated k ws) as [|w0 later] eqn:Hd; [discriminate|].
    injection Hin as <-. simpl.
    assert (Hw0 : In w0 (dated k ws)) by (rewrite Hd; now left).
    apply filter_In in Hw0 as [_ Hw0]. now apply str_eqb_eq.
Qed.

(** ** Weeks of one directory *)

Lemma weeks_of_In (by_date : Dict (list str)) (cands : list Path)
      (w : ExampleWeek) :
  In w (weeks_of by_date cands) <->
  In (date w, member_reports w) by_date
  /\ team_report w = select_team_text (date w) cands
  /\ team_report w <> [].
Proof.
  induction by_date as [|[d chunks] rest IH]; simpl.
  - split; [contradiction | now intros [[] _]].
  - destruct (truthy (select_team_text d cands)) eqn:Ht.
    + simpl. rewrite IH. apply truthy_true in Ht. split.
      * intros [<-|(Hin & Ht' & Hne)]; simpl; auto.
      * intros ([H|Hin] & Ht' & Hne); auto.
        left. destruct w as [wd wm wt]. simpl in *.
        injection H as -> ->. now subst wt.
    + rewrite IH. apply truthy_false in Ht. split.
      * intros (Hin & Ht' & Hne). auto.
      * intros ([H|Hin] & Ht' & Hne); auto.
        injection H as -> ->. congruence.
Qed.

Lemma collect_examples_team_report (dir : Folder) (w : ExampleWeek) :
  In w (collect_examples dir) -> team_report w <> [].
Proof.
  destruct dir as [entries|]; simpl; [|contradiction].
  intros H. now apply weeks_of_In in H.
Qed.

Lemma weeks_in_order_team_report (dirs : list Folder) (w : ExampleWeek) :
  In w (weeks_in_order dirs) -> team_report w <> [].
Proof.
  unfold weeks_in_order. rewrite in_concat.
  intros (ws & Hws & Hw). apply in_map_iff in Hws as (dir & <- & _).
  now apply collect_examples_team_report in Hw.
Qed.

Lemma dated_In (d : str) (ws : list ExampleWeek) (w : ExampleWeek) :
  In w (dated d ws) <-> In w ws /\ date w = d.
Proof. unfold dated. rewrite filter_In, str_eqb_eq. reflexivity. Qed.

Lemma first_truthy_head (t : str) (rest : list str) :
  t <> [] -> first_truthy (t :: rest) = t.
Proof. intros H. simpl. apply truthy_true in H. now rewrite H. Qed.

Lemma merged_week_team_report (w0 : ExampleWeek) (later : list ExampleWeek) :
  team_report w0 <> [] -> team_report (merged_week w0 later) = team_report w0.
Proof. intros H. simpl. apply truthy_true in H. now rewrite H. Qed.

Lemma merged_week_reports_In (w0 : ExampleWeek) (later : list ExampleWeek)
      (x : str) :
  In x (member_reports (merged_week w0 later)) <->
  exists w, In w (w0 :: later) /\ In x (member_reports w).
Proof.
  simpl. rewrite add_new_In, in_concat. split.
  - intros [H|(l & Hl & Hx)].
    + exists w0. auto.
    + apply in_map_iff in Hl as (w & <- & Hw). exists w. auto.
  - intros (w & [<-|Hw] & Hx); [now left|]. right.
    exists (member_reports w). split; [now apply in_map | assumption].
Qed.

(** C3.  Every week returned by [collect_examples], and every week
    returned by [collect_examples_from_dirs], has a non-empty team report;
    the team report of a week of one directory is what the selection among
    the team-report candidates resolved to, and a date for which it
    resolves to the empty text has no week in the output. *)
Theorem example_weeks_have_team_report :
  (forall dir w, In w (collect_examples dir) -> team_report w <> [])
  /\ (forall dirs w,
         In w (collect_examples_from_dirs dirs) -> team_report w <> [])
  /\ (forall entries w,
         In w (collect_examples (Some entries)) ->
         team_report w
         = select_team_text (date w) (team_candidates_of entries))
  /\ (forall entries d,
         select_team_text d (team_candidates_of entries) = [] ->
         dated d (collect_examples (Some entries)) = []).
Proof.
  split; [|split; [|split]].
  - apply collect_examples_team_report.
  - intros dirs w Hin. rewrite collect_examples_from_dirs_eq in Hin.
    apply in_map_iff in Hin as ([k e] & <- & Hin). simpl.
    destruct (merged_get (weeks_in_order dirs) k) as [Hnd Hget].
    apply (In_dict_get _ _ _ Hnd) in Hin. rewrite Hget in Hin.
    destruct (dated k (weeks_in_order dirs)) as [|w0 later] eqn:Hd;
      [discriminate|].
    injection Hin as <-.
    assert (Hw0 : In w0 (dated k (weeks_in_order dirs)))
      by (rewrite Hd; now left).
    apply dated_In in Hw0 as [Hw0 _].
    apply weeks_in_order_team_report in Hw0.
    now rewrite merged_week_team_report.
  - intros entries w Hin. simpl in Hin. now apply weeks_of_In in Hin.
  - intros entries d Hsel.
    destruct (dated d (collect_examples (Some entries))) as [|w rest] eqn:Hd;
      [reflexivity|].
    assert (Hw : In w (dated d (collect_examples (Some entries))))
      by (rewrite Hd; now left).
    apply dated_In in Hw as [Hw <-]. simpl in Hw.
    apply weeks_of_In in Hw as (_ & Ht & Hne). congruence.
Qed.

(** The invariant at work on two directories. *)
Lemma example_weeks_have_team_report_witness :
  In {| date := py "20240101";
        member_reports := [member_chunk (py "A") (py "T");
                           member_chunk (py "A") (py "T")];
        team_report := py "R" |} (collect_examples twice_dir)
  /\ py "R" <> [].
Proof.
  split.
  - now left.
  - exact (proj1 example_weeks_have_team_report twice_dir _
                 (or_introl eq_refl)).
Defined.

(** C2 (as amended).  [collect_examples_from_dirs] keeps one week per
    date.  When a date occurs in the weeks [w0 :: later] of the
    directories, in directory order, the merged week's member chunks are
    the chunks of [w0] exactly as they are, followed by the chunks of the
    later weeks that were not yet present, each added once and in the
    order in which the later weeks, taken in directory order, list them;
    so every chunk of every directory occurs in it, and it is free of
    duplicates whenever the chunks of [w0] are.  Its team report is the
    first non-empty team report in directory order, which is the one of
    [w0]. *)
Theorem collect_examples_from_dirs_merges_by_date
        (example_dirs : list Folder) (d : str)
        (w0 : ExampleWeek) (later : list ExampleWeek) :
  dated d (weeks_in_order example_dirs) = w0 :: later ->
  exists e extra,
    dated d (collect_examples_from_dirs example_dirs) = [e]
    /\ date e = d
    /\ member_reports e
       = add_new (member_reports w0) (concat (map member_reports later))
    /\ member_reports e = member_reports w0 ++ extra
    /\ NoDup extra
    /\ (forall x, In x extra -> ~ In x (member_reports w0))
    /\ (forall x, In x (member_reports e) <->
                  exists w, In w (w0 :: later) /\ In x (member_reports w))
    /\ (NoDup (member_reports w0) -> NoDup (member_reports e))
    /\ team_report e = first_truthy (map team_report (w0 :: later))
    /\ team_report e = team_report w0.
Proof.
  intros Hd.
  destruct (add_new_extends (concat (map member_reports later))
                            (member_reports w0)) as (extra & E & Hnd & Hx).
  assert (Hw0 : In w0 (dated d (weeks_in_order example_dirs)))
    by (rewrite Hd; now left).
  apply dated_In in Hw0 as [Hw0 Hdate].
  exists (merged_week w0 later), extra.
  split; [|split; [|split; [|split; [|split; [|split; [|split; [|split;
    [|split]]]]]]]].
  - now rewrite collect_examples_from_dirs_eq, merged_values_dated, Hd.
  - exact Hdate.
  - reflexivity.
  - exact E.
  - exact Hnd.
  - intros x Hin. now apply Hx.
  - apply merged_week_reports_In.
  - intros Hnd0. cbn [member_reports merged_week]. rewrite E.
    apply NoDup_app; auto. intros x Hx0 Hxe. now apply Hx in Hxe.
  - reflexivity.
  - apply merged_week_team_report.
    now apply weeks_in_order_team_report in Hw0.
Qed.

(** The merge of [twice_dir] and [later_dir], in this order: the chunks
    of the first directory as they are, then those of C and of B in the
    order the second directory lists them, and nothing for A. *)
Lemma collect_examples_from_dirs_merges_by_date_witness :
  exists e,
    dated (py "20240101") (collect_examples_from_dirs [twice_dir; later_dir])
    = [e]
    /\ member_reports e
       = [member_chunk (py "A") (py "T"); member_chunk (py "A") (py "T");
          member_chunk (py "C") (py "V"); member_chunk (py "B") (py "U")]
    /\ team_report e = py "R".
Proof.
  destruct (collect_examples_from_dirs_merges_by_date
              [twice_dir; later_dir] (py "20240101") _ _ eq_refl)
    as (e & extra & He & _ & Hm & _ & _ & _ & _ & _ & _ & Ht).
  exists e. split; [exact He|]. split; [exact Hm | exact Ht].
Defined.

(** C2 (as stated) fails: merging [twice_dir] and [other_dir] gives a
    week in which the chunk of A occurs twice, because the chunks of the
    first directory that has the date are copied as they are. *)
Lemma collect_examples_from_dirs_keeps_duplicates :
  collect_examples_from_dirs [twice_dir; other_dir]
  = [{| date := py "20240101";
        member_reports := [member_chunk (py "A") (py "T");
                           member_chunk (py "A") (py "T");
                           member_chunk (py "B") (py "U")];
        team_report := py "R" |}]
  /\ ~ NoDup [member_chunk (py "A") (py "T");
              member_chunk (py "A") (py "T");
              member_chunk (py "B") (py "U")].
Proof.
  split; [reflexivity|].
  intros H. apply NoDup_cons_iff in H as [H _]. apply H. now left.
Qed.

(** ** Grouping by date *)

Lemma setdefault_append_get (by_date : Dict (list str)) (k x d : str) :
  dict_get (setdefault_append by_date k x) d
  = if str_eqb k d
    then Some match dict_get by_date d with
              | Some xs => xs ++ [x]
              | None => [x]
              end
    else dict_get by_date d.
Proof.
  induction by_date as [|[k' xs] rest IH]; simpl; [reflexivity|].
  destruct (str_eqb k' k) eqn:Hk; simpl.
  - apply str_eqb_eq in Hk. subst k'. destruct (str_eqb k d); reflexivity.
  - rewrite IH. destruct (str_eqb k' d) eqn:Hkd; [|reflexivity].
    apply str_eqb_eq in Hkd. subst k'. now rewrite str_eqb_sym, Hk.
Qed.

Lemma setdefault_append_keys (by_date : Dict (list str)) (k x : str) :
  map fst (setdefault_append by_date k x)
  = if existsb (str_eqb k) (map fst by_date) then map fst by_date
    else map fst by_date ++ [k].
Proof.
  induction by_date as [|[k' xs] rest IH]; simpl; [reflexivity|].
  rewrite (str_eqb_sym k k').
  destruct (str_eqb k' k); simpl; [reflexivity|].
  rewrite IH. now destruct (existsb (str_eqb k) (map fst rest)).
Qed.

Lemma by_date_step_keys (by_date : Dict (list str)) (r : str * str * Path) :
  NoDup (map fst by_date) -> NoDup (map fst (by_date_step by_date r)).
Proof.
  intros H. destruct r as [[name d] p]. unfold by_date_step.
  destruct (truthy (load_markdown_from_file p)); simpl; [|assumption].
  rewrite setdefault_append_keys.
  destruct (existsb (str_eqb d) (map fst by_date)) eqn:E; [assumption|].
  apply NoDup_app; [assumption | repeat constructor; auto | ].
  intros x Hx [<-|[]]. apply existsb_str_eqb in Hx. congruence.
Qed.

(** After the first loop the dictionary holds, under each date, the
    chunks of that date in the order the reports were yielded, and no
    entry for a date without chunks. *)
Lemma group_by_date_from (reports : list (str * str * Path))
      (start : Dict (list str)) (d : str) :
  NoDup (map fst start) ->
  NoDup (map fst (fold_left by_date_step reports start))
  /\ dict_get (fold_left by_date_step reports start) d
     = match dict_get start d, chunks_of d reports with
       | Some xs, cs => Some (xs ++ cs)
       | None, [] => None
       | None, cs => Some cs
       end.
Proof.
  revert start. induction reports as [|[[name dt] p] rest IH];
    intros start Hnd.
  - simpl. split; [assumption|].
    destruct (dict_get start d); [now rewrite app_nil_r | reflexivity].
  - cbn [fold_left].
    destruct (IH _ (by_date_step_keys start (name, dt, p) Hnd)) as [Hk Hg].
    split; [assumption|]. rewrite Hg. clear IH Hk Hg.
    unfold by_date_step. cbn [chunks_of flat_map].
    fold (chunks_of d rest).
    destruct (truthy (load_markdown_from_file p)) eqn:Ht; simpl.
    + rewrite setdefault_append_get.
      destruct (str_eqb dt d) eqn:Hd; simpl.
      * destruct (dict_get start d); [now rewrite <- app_assoc|].
        reflexivity.
      * reflexivity.
    + rewrite andb_false_r. reflexivity.
Qed.

Lemma group_by_date_get (reports : list (str * str * Path)) (d : str) :
  NoDup (map fst (group_by_date reports))
  /\ dict_get (group_by_date reports) d
     = match chunks_of d reports with
       | [] => None
       | cs => Some cs
       end.
Proof. apply (group_by_date_from reports [] d). constructor. Qed.

Lemma chunks_of_In (d : str) (reports : list (str * str * Path))
      (name : str) (p : Path) :
  In (name, d, p) reports -> load_markdown_from_file p <> [] ->
  In (member_chunk name (load_markdown_from_file p)) (chunks_of d reports).
Proof.
  intros Hin Hne. unfold chunks_of. apply in_flat_map.
  exists (name, d, p). split; [assumption|].
  apply truthy_true in Hne. rewrite str_eqb_refl, Hne. now left.
Qed.

(** The weeks of one directory, date by date: there is a week for a date
    exactly when the date has chunks and the selected team text is not
    empty, and the week holds those chunks and that text. *)
Lemma collect_examples_dated (entries : list Path) (d : str) :
  dated d (collect_examples (Some entries))
  = match chunks_of d (iter_member_reports (Some entries)) with
    | [] => []
    | cs =>
        if truthy (select_team_text d (team_candidates_of entries))
        then [{| date := d; member_reports := cs;
                 team_report :=
                   select_team_text d (team_candidates_of entries) |}]
        else []
    end.
Proof.
  unfold collect_examples.
  destruct (group_by_date_get (iter_member_reports (Some entries)) d)
    as [Hnd Hget].
  revert Hnd Hget.
  generalize (group_by_date (iter_member_reports (Some entries))).
  generalize (chunks_of d (iter_member_reports (Some entries))).
  generalize (team_candidates_of entries).
  intros cands cs bd Hnd Hget.
  assert (H : dated d (weeks_of bd cands)
              = match dict_get bd d with
                | None => []
                | Some xs =>
                    if truthy (select_team_text d cands)
                    then [{| date := d; member_reports := xs;
                             team_report := select_team_text d cands |}]
                    else []
                end).
  { clear Hget. induction bd as [|[k xs] rest IH]; [reflexivity|].
    simpl in Hnd. apply NoDup_cons_iff in Hnd as [Hk Hrest].
    specialize (IH Hrest). simpl.
    destruct (str_eqb k d) eqn:E.
    - apply str_eqb_eq in E. subst k.
      assert (Hnone : dict_get rest d = None).
      { destruct (dict_get rest d) eqn:G; [|reflexivity].
        apply dict_get_In in G. exfalso. apply Hk.
        now apply (in_map fst) in G. }
      rewrite Hnone in IH.
      destruct (truthy (select_team_text d cands)); simpl.
      + now rewrite str_eqb_refl, IH.
      + assumption.
    - destruct (truthy (select_team_text k cands)); simpl.
      + now rewrite E.
      + assumption. }
  rewrite H, Hget. now destruct cs.
Qed.

(** ** Team-report candidates *)

Lemma startswith_app (sub rest : str) : startswith sub (sub ++ rest) = true.
Proof.
  unfold startswith.
  now rewrite (proj2 (strip_prefix_Some sub (sub ++ rest) rest) eq_refl).
Qed.

Lemma contains_app (sub a b : str) : contains sub (a ++ sub ++ b) = true.
Proof.
  induction a as [|c a IH].
  - simpl app. destruct (sub ++ b) eqn:E; simpl; rewrite <- E;
      now rewrite startswith_app.
  - simpl. rewrite IH. apply orb_true_r.
Qed.

Lemma accepted_contains_date (fname name d ext : str) :
  accepted_by_pattern fname name d ext -> contains d fname = true.
Proof.
  intros (z & -> & _). unfold report_file_name.
  replace ((name ++ REPORT_MARK ++ d ++ [46] ++ ext) ++ z)
    with ((name ++ REPORT_MARK) ++ d ++ ([46] ++ ext ++ z))
    by now rewrite <- !app_assoc.
  apply contains_app.
Qed.

Lemma first_dated_candidate_text_at (d : str) (pre post : list Path)
      (c : Path) :
  (forall q, In q pre -> contains d (path_name q) = false) ->
  contains d (path_name c) = true ->
  first_dated_candidate_text d (pre ++ c :: post)
  = load_markdown_from_file c.
Proof.
  intros Hpre Hc. induction pre as [|q pre IH]; simpl.
  - now rewrite Hc.
  - rewrite (Hpre q (or_introl eq_refl)). apply IH.
    intros q' Hq'. apply Hpre. now right.
Qed.

Lemma team_candidates_of_In (entries : list Path) (p : Path) :
  In p (team_candidates_of entries) <->
  In p entries /\ path_is_file p = true
  /\ contains TEAM_REPORT_HINT (path_name p) = true.
Proof.
  unfold team_candidates_of. rewrite filter_In, andb_true_iff. tauto.
Qed.

(** C9 (as amended).  A regular file whose name contains the team-report
    marker and is accepted by the member-report pattern is both yielded
    as a member report and listed as a team-report candidate.  When its
    extracted text is not empty, its chunk is among the member chunks of
    the week of its date whenever that week is produced; and when it is
    moreover the first candidate, in listing order, whose name contains
    the date, the week is produced and its team report is that text. *)
Theorem team_named_member_report_counts_twice
        (entries : list Path) (p : Path) (name d ext : str) :
  In p entries -> path_is_file p = true ->
  accepted_by_pattern (path_name p) name d ext ->
  contains TEAM_REPORT_HINT (path_name p) = true ->
  load_markdown_from_file p <> [] ->
  In (name, d, p) (iter_member_reports (Some entries))
  /\ In p (team_candidates_of entries)
  /\ (forall w, In w (collect_examples (Some entries)) -> date w = d ->
                In (member_chunk name (load_markdown_from_file p))
                   (member_reports w))
  /\ (forall pre post,
         team_candidates_of entries = pre ++ p :: post ->
         (forall q, In q pre -> contains d (path_name q) = false) ->
         exists w, dated d (collect_examples (Some entries)) = [w]
                   /\ In (member_chunk name (load_markdown_from_file p))
                         (member_reports w)
                   /\ team_report w = load_markdown_from_file p).
Proof.
  intros Hin Hfile Hacc Hhint Htext.
  assert (Hy : In (name, d, p) (iter_member_reports (Some entries))).
  { apply iter_member_reports_in_spec. repeat split; auto. now exists ext. }
  assert (Hchunk := chunks_of_In d _ name p Hy Htext).
  split; [exact Hy|]. split; [now apply team_candidates_of_In|]. split.
  - intros w Hw Hd.
    assert (Hw' : In w (dated d (collect_examples (Some entries))))
      by now apply dated_In.
    rewrite collect_examples_dated in Hw'.
    destruct (chunks_of d (iter_member_reports (Some entries))) as [|c cs];
      [contradiction|].
    destruct (truthy _); [|contradiction].
    destruct Hw' as [<-|[]]. exact Hchunk.
  - intros pre post Hc Hpre. rewrite collect_examples_dated.
    assert (Hsel : select_team_text d (team_candidates_of entries)
                   = load_markdown_from_file p).
    { unfold select_team_text. rewrite Hc.
      rewrite (first_dated_candidate_text_at d pre post p Hpre
                 (accepted_contains_date _ _ _ _ Hacc)).
      apply truthy_true in Htext. rewrite Htext. simpl.
      now destruct (pre ++ p :: post). }
    rewrite Hsel. apply truthy_true in Htext. rewrite Htext.
    destruct (chunks_of d (iter_member_reports (Some entries))) as [|c cs];
      [contradiction|].
    eexists. split; [reflexivity|]. split; [exact Hchunk | reflexivity].
Qed.

(** The department report of the specification's scenario. *)
Lemma team_named_member_report_counts_twice_witness :
  exists w,
    dated (py "20231225")
          (collect_examples
             (Some [plain_file (py "Alice工作報告-20231225.md") (py "hello");
                    plain_file (py "部門之工作報告-20231225.md") (py "team")]))
    = [w]
    /\ In (member_chunk (py "部門之") (py "team")) (member_reports w)
    /\ team_report w = py "team".
Proof.
  assert (Hacc : accepted_by_pattern (py "部門之工作報告-20231225.md")
                   (py "部門之") (py "20231225") (py "md")).
  { now apply MEMBER_REPORT_REGEX_match_spec. }
  assert (Htext : load_markdown_from_file
                    (plain_file (py "部門之工作報告-20231225.md") (py "team"))
                  <> []) by discriminate.
  exact (proj2 (proj2 (proj2
           (team_named_member_report_counts_twice
              [plain_file (py "Alice工作報告-20231225.md") (py "hello");
               plain_file (py "部門之工作報告-20231225.md") (py "team")]
              (plain_file (py "部門之工作報告-20231225.md") (py "team"))
              (py "部門之") (py "20231225") (py "md")
              (or_intror (or_introl eq_refl)) eq_refl Hacc eq_refl Htext)))
         [] [] eq_refl (fun q (H : In q []) => match H with end)).
Defined.

(** C9 (as stated) fails when another candidate named with the date is
    listed first: both files of [two_team_reports_dir] are member reports
    and candidates, and the week's team report is the text of the first
    one, not that of the second. *)
Lemma second_team_report_is_not_the_team_report :
  collect_examples two_team_reports_dir
  = [{| date := py "20231225";
        member_reports := [member_chunk (py "X之") (py "T1");
                           member_chunk (py "部門之") (py "T2")];
        team_report := py "T1" |}]
  /\ MEMBER_REPORT_REGEX_match (py "部門之工作報告-20231225.md")
     = Some {| group_name := py "部門之"; group_date := py "20231225";
               group_ext := py "md" |}
  /\ contains TEAM_REPORT_HINT (py "部門之工作報告-20231225.md") = true
  /\ load_markdown_from_file
       (plain_file (py "部門之工作報告-20231225.md") (py "T2")) = py "T2"
  /\ py "T1" <> py "T2".
Proof. repeat split; try reflexivity. discriminate. Qed.

(** C10.  The loop over the candidates ends at the first one whose name
    contains the date, whatever follows it; when the text of that
    candidate is empty the team text is the text of the first candidate
    of the whole list, and this is the team report of the week of that
    date if there is one. *)
Theorem empty_dated_candidate_ends_search
        (d : str) (pre post : list Path) (c : Path) :
  (forall q, In q pre -> contains d (path_name q) = false) ->
  contains d (path_name c) = true ->
  load_markdown_from_file c = [] ->
  first_dated_candidate_text d (pre ++ c :: post) = []
  /\ select_team_text d (pre ++ c :: post)
     = load_markdown_from_file (hd c pre)
  /\ (forall entries w,
         team_candidates_of entries = pre ++ c :: post ->
         In w (collect_examples (Some entries)) -> date w = d ->
         team_report w = load_markdown_from_file (hd c pre)).
Proof.
  intros Hpre Hc Hempty.
  assert (Hloop : first_dated_candidate_text d (pre ++ c :: post) = [])
    by (rewrite first_dated_candidate_text_at; auto).
  assert (Hsel : select_team_text d (pre ++ c :: post)
                 = load_markdown_from_file (hd c pre)).
  { unfold select_team_text. rewrite Hloop. simpl.
    destruct pre; reflexivity. }
  repeat split; auto.
  intros entries w Hcands Hw <-.
  simpl in Hw. apply weeks_of_In in Hw as (_ & Ht & _).
  now rewrite Ht, Hcands.
Qed.

(** In [empty_dated_candidate_dir] the first dated candidate is empty and
    a later dated one holds ["L"]: the week gets ["F"], the text of the
    first candidate. *)
Lemma empty_dated_candidate_ends_search_witness :
  select_team_text (py "20231225")
                   (team_candidates_of empty_dated_candidate_dir)
  = py "F"
  /\ collect_examples (Some empty_dated_candidate_dir)
     = [{| date := py "20231225";
           member_reports := [member_chunk (py "Alice") (py "hello")];
           team_report := py "F" |}].
Proof.
  split; [|reflexivity].
  refine (proj1 (proj2
    (empty_dated_candidate_ends_search (py "20231225")
       [plain_file (py "部門之工作報告.md") (py "F")]
       [plain_file (py "科之工作報告20231225.md") (py "L")]
       (plain_file (py "組之工作報告20231225.md") [])
       _ eq_refl eq_refl))).
  intros q [<-|[]]. reflexivity.
Defined.

(** ** The order on dates *)

Lemma str_ltb_irrefl (a : str) : str_ltb a a = false.
Proof.
  induction a as [|x a IH]; simpl; [reflexivity|].
  now rewrite N.ltb_irrefl, N.eqb_refl, IH.
Qed.

Lemma str_ltb_trans (a b c : str) :
  str_ltb a b = true -> str_ltb b c = true -> str_ltb a c = true.
Proof.
  revert b c. induction a as [|x a IH]; intros [|y b] [|z c]; simpl;
    try discriminate; auto.
  intros H1 H2.
  apply orb_true_iff in H1 as [H1|H1]; apply orb_true_iff in H2 as [H2|H2];
    apply orb_true_iff;
    repeat match goal with
           | H : _ && _ = true |- _ => apply andb_true_iff in H as [? ?]
           | H : (_ <? _) = true |- _ => apply N.ltb_lt in H
           | H : (_ =? _) = true |- _ => apply N.eqb_eq in H
           end;
    subst.
  - left. apply N.ltb_lt. lia.
  - left. now apply N.ltb_lt.
  - left. now apply N.ltb_lt.
  - right. rewrite N.eqb_refl. simpl. eapply IH; eassumption.
Qed.

Lemma str_ltb_connex (a b : str) :
  str_ltb a b = false -> str_ltb b a = true \/ a = b.
Proof.
  revert b. induction a as [|x a IH]; intros [|y b]; simpl; auto;
    try discriminate.
  intros H. apply orb_false_iff in H as [Hlt H].
  apply N.ltb_ge in Hlt.
  destruct (N.eqb_spec x y) as [->|Hne].
  - simpl in H. rewrite N.ltb_irrefl, N.eqb_refl. simpl.
    destruct (IH b H) as [Hb| ->]; auto.
  - left. apply orb_true_iff. left. apply N.ltb_lt. lia.
Qed.

Lemma str_ltb_asym (a b : str) : str_ltb a b = true -> str_ltb b a = false.
Proof.
  intros H. destruct (str_ltb b a) eqn:E; [|reflexivity].
  assert (Haa := str_ltb_trans _ _ _ H E). now rewrite str_ltb_irrefl in Haa.
Qed.

Lemma not_before_trans (a b c : ExampleWeek) :
  not_before a b -> not_before b c -> not_before a c.
Proof.
  unfold not_before. intros Hab Hbc.
  destruct (str_ltb (date a) (date c)) eqn:Hac; [|reflexivity].
  destruct (str_ltb_connex _ _ Hab) as [Hba|E].
  - now rewrite (str_ltb_trans _ _ _ Hba Hac) in Hbc.
  - rewrite E in Hac. congruence.
Qed.

Lemma date_number_bound (s : str) :
  forallb isascii_digit s = true -> date_number s < 10 ^ N.of_nat (length s).
Proof.
  induction s as [|c r IH]; simpl length; cbn [date_number forallb].
  - intros _. simpl. lia.
  - intros H. apply andb_true_iff in H as [Hc Hr]. specialize (IH Hr).
    unfold isascii_digit in Hc. apply andb_true_iff in Hc as [Hlo Hhi].
    apply N.leb_le in Hlo, Hhi.
    rewrite Nat2N.inj_succ, N.pow_succ_r'. nia.
Qed.

(** On all-digit strings of one length the order of the strings is the
    order of the numbers they denote. *)
Lemma str_ltb_date_number (a b : str) :
  length a = length b ->
  forallb isascii_digit a = true -> forallb isascii_digit b = true ->
  str_ltb a b = (date_number a <? date_number b).
Proof.
  revert b. induction a as [|x a IH]; intros [|y b]; try discriminate.
  - reflexivity.
  - intros Hl Ha Hb. injection Hl as Hl.
    cbn [date_number forallb str_ltb] in *.
    apply andb_true_iff in Ha as [Hx Ha], Hb as [Hy Hb].
    rewrite (IH b Hl Ha Hb), <- Hl.
    assert (Ba := date_number_bound a Ha).
    assert (Bb := date_number_bound b Hb). rewrite <- Hl in Bb.
    unfold isascii_digit in Hx, Hy.
    apply andb_true_iff in Hx as [Hx1 Hx2], Hy as [Hy1 Hy2].
    apply N.leb_le in Hx1, Hx2, Hy1, Hy2.
    set (P := 10 ^ N.of_nat (length a)) in *.
    destruct (N.ltb_spec x y) as [Hxy|Hxy]; simpl.
    + symmetry. apply N.ltb_lt. nia.
    + destruct (N.eqb_spec x y) as [->|Hne]; simpl.
      * destruct (N.ltb_spec (date_number a) (date_number b));
          symmetry; [apply N.ltb_lt | apply N.ltb_ge]; lia.
      * symmetry. apply N.ltb_ge. nia.
Qed.

(** ** Sorting the weeks *)

Lemma insert_desc_perm (w : ExampleWeek) (l : list ExampleWeek) :
  Permutation (w :: l) (insert_desc w l).
Proof.
  induction l as [|x l IH]; simpl; [reflexivity|].
  destruct (str_ltb (date w) (date x)); [|reflexivity].
  rewrite perm_swap. now constructor.
Qed.

Lemma sorted_by_date_desc_perm (weeks : list ExampleWeek) :
  Permutation weeks (sorted_by_date_desc weeks).
Proof.
  induction weeks as [|w l IH]; simpl; [constructor|].
  rewrite <- insert_desc_perm. now constructor.
Qed.

Lemma insert_desc_sorted (w : ExampleWeek) (l : list ExampleWeek) :
  StronglySorted not_before l -> StronglySorted not_before (insert_desc w l).
Proof.
  induction l as [|x l IH]; simpl; intros Hs.
  - repeat constructor.
  - apply StronglySorted_inv in Hs as [Hl Hx].
    destruct (str_ltb (date w) (date x)) eqn:E.
    + constructor; [now apply IH|].
      rewrite <- insert_desc_perm. constructor; [|assumption].
      now apply str_ltb_asym.
    + constructor; [now constructor|]. constructor; [exact E|].
      eapply Forall_impl; [|exact Hx].
      intros y Hy. eapply not_before_trans; [exact E | exact Hy].
Qed.

Lemma sorted_by_date_desc_sorted (weeks : list ExampleWeek) :
  StronglySorted not_before (sorted_by_date_desc weeks).
Proof.
  induction weeks as [|w l IH]; simpl; [constructor|].
  now apply insert_desc_sorted.
Qed.

Lemma insert_desc_dated (d : str) (w : ExampleWeek) (l : list ExampleWeek) :
  dated d (insert_desc w l) = dated d (w :: l).
Proof.
  unfold dated. induction l as [|x l IH]; simpl; [reflexivity|].
  destruct (str_ltb (date w) (date x)) eqn:E; [|reflexivity].
  simpl. rewrite IH. simpl.
  destruct (str_eqb (date x) d) eqn:Hx; [|reflexivity].
  destruct (str_eqb (date w) d) eqn:Hw; [|reflexivity].
  apply str_eqb_eq in Hx, Hw. rewrite Hx, Hw, str_ltb_irrefl in E.
  discriminate.
Qed.

Lemma sorted_by_date_desc_dated (d : str) (weeks : list ExampleWeek) :
  dated d (sorted_by_date_desc weeks) = dated d weeks.
Proof.
  induction weeks as [|w l IH]; simpl; [reflexivity|].
  rewrite insert_desc_dated. unfold dated in *. simpl. now rewrite IH.
Qed.

Lemma sorted_distinct_strict (l : list ExampleWeek) :
  StronglySorted not_before l -> NoDup (map date l) ->
  StronglySorted after l.
Proof.
  induction 1 as [|a l Hs IH Ha]; intros Hnd; [constructor|].
  simpl in Hnd. apply NoDup_cons_iff in Hnd as [Hnot Hnd].
  constructor; [now apply IH|].
  rewrite Forall_forall in *. intros b Hb.
  destruct (str_ltb_connex _ _ (Ha b Hb)) as [Hlt|E]; [exact Hlt|].
  exfalso. apply Hnot. rewrite E. now apply in_map.
Qed.

(** ** Where the few-shot header can occur in a prompt *)

Lemma clash_startswith (h t rest : str) :
  clash h t = true -> startswith h (t ++ rest) = false.
Proof.
  unfold startswith. revert t.
  induction h as [|x h IH]; intros [|y t]; simpl; try discriminate.
  destruct (x =? y); [|reflexivity]. apply IH.
Qed.

Lemma all_clash_contains (h l rest : str) :
  all_clash h l = true -> contains h (l ++ rest) = contains h rest.
Proof.
  induction l as [|c l IH]; [reflexivity|].
  intros H. cbn [all_clash] in H. apply andb_true_iff in H as [Hc Hl].
  change ((c :: l) ++ rest) with (c :: (l ++ rest)). cbn [contains].
  change (c :: (l ++ rest)) with ((c :: l) ++ rest).
  rewrite (clash_startswith _ _ _ Hc). simpl. now apply IH.
Qed.

Lemma startswith_before_newline (h m rest : str) :
  h <> [] -> ~ In 10 h ->
  startswith h (m ++ 10 :: rest) = startswith h m.
Proof.
  unfold startswith. revert m.
  induction h as [|x h IH]; intros m Hne Hnl; [contradiction|].
  destruct m as [|c m]; simpl.
  - destruct (N.eqb_spec x 10) as [->|_]; [|reflexivity].
    exfalso. apply Hnl. now left.
  - destruct (x =? c); [|reflexivity].
    destruct h as [|x' h']; [reflexivity|].
    apply IH; [discriminate|]. intros Hin. apply Hnl. now right.
Qed.

Lemma contains_before_newline (h m rest : str) :
  h <> [] -> ~ In 10 h ->
  contains h (m ++ 10 :: rest) = contains h m || contains h (10 :: rest).
Proof.
  intros Hne Hnl. induction m as [|c m IH].
  - destruct h; [contradiction | reflexivity].
  - change ((c :: m) ++ 10 :: rest) with (c :: (m ++ 10 :: rest)).
    cbn [contains]. rewrite IH.
    change (c :: (m ++ 10 :: rest)) with ((c :: m) ++ 10 :: rest).
    rewrite startswith_before_newline by assumption.
    now rewrite orb_assoc.
Qed.

Lemma contains_skip (x h rest : str) (c : codepoint) :
  hd_error h = Some c -> ~ In c x ->
  contains h (x ++ rest) = contains h rest.
Proof.
  intros Hh Hc. destruct h as [|c' h]; [discriminate|].
  injection Hh as ->. induction x as [|y x IH]; [reflexivity|].
  change ((y :: x) ++ rest) with (y :: (x ++ rest)). cbn [contains].
  rewrite IH by (intros H; apply Hc; now right).
  unfold startswith. simpl.
  destruct (N.eqb_spec c y) as [->|_]; [|reflexivity].
  exfalso. apply Hc. now left.
Qed.

Lemma string_of_uint_digits (u : Decimal.uint) (c : codepoint) :
  In c (py (NilEmpty.string_of_uint u)) -> isascii_digit c = true.
Proof.
  induction u; simpl; try contradiction;
    (intros [<-|H]; [reflexivity | now apply IHu]).
Qed.

Lemma str_of_nat_digits (n : nat) (c : codepoint) :
  In c (str_of_nat n) -> isascii_digit c = true.
Proof.
  unfold str_of_nat, NilZero.string_of_uint.
  destruct (Nat.to_uint n) eqn:E;
    try (rewrite <- E; apply string_of_uint_digits).
  simpl. intros [<-|[]]. reflexivity.
Qed.

Lemma header_shape :
  FEW_SHOT_HEADER <> [] /\ ~ In 10 FEW_SHOT_HEADER
  /\ hd_error FEW_SHOT_HEADER = Some 70.
Proof.
  split; [discriminate|]. split; [|reflexivity].
  unfold FEW_SHOT_HEADER. simpl.
  intros H. repeat (destruct H as [H|H]; [discriminate|]). exact H.
Qed.

Lemma header_in_report_block (i : nat) (txt rest : str) :
  contains FEW_SHOT_HEADER (report_block i txt ++ rest)
  = contains FEW_SHOT_HEADER txt || contains FEW_SHOT_HEADER rest.
Proof.
  destruct header_shape as (Hne & Hnl & Hh).
  unfold report_block. rewrite <- !app_assoc.
  rewrite (all_clash_contains _ (py "<REPORT index=")) by reflexivity.
  rewrite (contains_skip _ _ _ 70 Hh).
  2:{ intros H. apply str_of_nat_digits in H. discriminate. }
  rewrite (all_clash_contains _ (py ">")) by reflexivity.
  rewrite (all_clash_contains _ nl) by reflexivity.
  change (nl ++ py "</REPORT>" ++ rest) with (10 :: py "</REPORT>" ++ rest).
  rewrite contains_before_newline by assumption.
  change (10 :: py "</REPORT>" ++ rest)
    with ((10 :: py "</REPORT>") ++ rest).
  now rewrite all_clash_contains.
Qed.

Lemma header_in_report_blocks (member_markdowns : list str) (i : nat)
      (rest : str) :
  contains FEW_SHOT_HEADER
           (join (nl ++ nl) (report_blocks i member_markdowns) ++ rest)
  = existsb (contains FEW_SHOT_HEADER) member_markdowns
    || contains FEW_SHOT_HEADER rest.
Proof.
  revert i. induction member_markdowns as [|m ms IH]; intros i.
  - reflexivity.
  - cbn [report_blocks existsb]. destruct ms as [|m2 ms].
    + cbn [report_blocks join existsb].
      now rewrite header_in_report_block, orb_false_r.
    + change (join (nl ++ nl)
                   (report_block i m :: report_blocks (S i) (m2 :: ms)))
        with (report_block i m ++ (nl ++ nl)
              ++ join (nl ++ nl) (report_blocks (S i) (m2 :: ms))).
      rewrite <- !app_assoc, header_in_report_block.
      rewrite (all_clash_contains _ nl) by reflexivity.
      rewrite (all_clash_contains _ nl) by reflexivity.
      now rewrite IH, orb_assoc.
Qed.

(** With an empty examples block the header occurs in the prompt only
    where a member report itself contains it. *)
Lemma header_absent_without_examples (member_markdowns : list str) :
  contains FEW_SHOT_HEADER (build_prompt member_markdowns [])
  = existsb (contains FEW_SHOT_HEADER) member_markdowns.
Proof.
  unfold build_prompt. cbn [truthy]. rewrite app_nil_l.
  rewrite <- !app_assoc.
  rewrite (all_clash_contains _ intro) by (vm_compute; reflexivity).
  rewrite (all_clash_contains _ instructions) by (vm_compute; reflexivity).
  rewrite (all_clash_contains _ nl) by reflexivity.
  rewrite (all_clash_contains _ nl) by reflexivity.
  rewrite (all_clash_contains _ (py "TARGET INPUT:")) by reflexivity.
  rewrite (all_clash_contains _ nl) by reflexivity.
  rewrite header_in_report_blocks.
  replace (contains FEW_SHOT_HEADER _) with false
    by (vm_compute; reflexivity).
  apply orb_false_r.
Qed.

Lemma header_present_with_examples (member_markdowns : list str)
      (examples_block : str) :
  examples_block <> [] ->
  contains FEW_SHOT_HEADER (build_prompt member_markdowns examples_block)
  = true.
Proof.
  intros H. apply truthy_true in H. unfold build_prompt. rewrite H.
  set (tail := nl ++ py "TARGET INPUT:" ++ _).
  replace ((intro ++ instructions ++ nl)
           ++ (nl ++ FEW_SHOT_HEADER ++ nl ++ examples_block ++ nl) ++ tail)
    with (((intro ++ instructions ++ nl) ++ nl)
          ++ FEW_SHOT_HEADER ++ ((nl ++ examples_block ++ nl) ++ tail))
    by now rewrite <- !app_assoc.
  apply contains_app.
Qed.

Lemma merged_dates_NoDup (dirs : list Folder) :
  NoDup (map date (collect_examples_from_dirs dirs)).
Proof.
  rewrite collect_examples_from_dirs_eq.
  set (ws := weeks_in_order dirs).
  destruct (merged_get ws []) as [Hnd _].
  assert (E : map date (map snd (fold_left merge_week ws []))
              = map fst (fold_left merge_week ws [])).
  { rewrite map_map. apply map_ext_in. intros [k e] Hin. simpl.
    apply (In_dict_get _ _ _ Hnd) in Hin.
    rewrite (proj2 (merged_get ws k)) in Hin.
    destruct (dated k ws) as [|w0 later] eqn:Hd; [discriminate|].
    injection Hin as <-. simpl.
    assert (Hw0 : In w0 (dated k ws)) by (rewrite Hd; now left).
    now apply dated_In in Hw0. }
  now rewrite E.
Qed.

(** C4 (as amended).  [build_few_shot_examples] renders the blocks of
    the weeks, joined by blank lines, in descending order of the date
    strings: no week is rendered before one of a later date, weeks of
    equal date keep the order of the input, and the order is strictly
    descending whenever the dates are pairwise distinct, which they are
    in every list [collect_examples_from_dirs] returns.  The order of
    the strings is that of the numbers when the dates are eight ASCII
    digits.  The empty list gives the empty string, and with an empty
    examples block the header [FEW-SHOT EXAMPLES:] occurs in the prompt
    only inside a member report that contains it, while a non-empty
    block is always introduced by the header. *)
Theorem build_few_shot_examples_descending (weeks : list ExampleWeek) :
  build_few_shot_examples weeks
  = join (nl ++ nl) (map example_block (sorted_by_date_desc weeks))
  /\ Permutation weeks (sorted_by_date_desc weeks)
  /\ StronglySorted not_before (sorted_by_date_desc weeks)
  /\ (forall d, dated d (sorted_by_date_desc weeks) = dated d weeks)
  /\ (NoDup (map date weeks) ->
      StronglySorted after (sorted_by_date_desc weeks))
  /\ (forall dirs, NoDup (map date (collect_examples_from_dirs dirs)))
  /\ (forall a b, length a = 8%nat -> length b = 8%nat ->
                  forallb isascii_digit a = true ->
                  forallb isascii_digit b = true ->
                  str_ltb a b = (date_number a <? date_number b))
  /\ build_few_shot_examples [] = []
  /\ (forall member_markdowns,
         contains FEW_SHOT_HEADER (build_prompt member_markdowns [])
         = existsb (contains FEW_SHOT_HEADER) member_markdowns)
  /\ (forall member_markdowns examples_block,
         examples_block <> [] ->
         contains FEW_SHOT_HEADER
                  (build_prompt member_markdowns examples_block) = true).
Proof.
  split; [now destruct weeks|].
  split; [apply sorted_by_date_desc_perm|].
  split; [apply sorted_by_date_desc_sorted|].
  split; [intros d; apply sorted_by_date_desc_dated|].
  split.
  { intros Hnd. apply sorted_distinct_strict.
    - apply sorted_by_date_desc_sorted.
    - eapply Permutation_NoDup; [|exact Hnd].
      apply Permutation_map, sorted_by_date_desc_perm. }
  split; [apply merged_dates_NoDup|].
  split.
  { intros a b Ha Hb. apply str_ltb_date_number. congruence. }
  split; [reflexivity|].
  split; [apply header_absent_without_examples|].
  apply header_present_with_examples.
Qed.

(** C4 (as stated) fails on two weeks of one date: both are rendered, in
    input order, and neither date is greater than the other. *)
Lemma equal_dates_not_strictly_descending :
  build_few_shot_examples [week_a; week_b]
  = example_block week_a ++ (nl ++ nl) ++ example_block week_b
  /\ sorted_by_date_desc [week_a; week_b] = [week_a; week_b]
  /\ str_ltb (date week_b) (date week_a) = false
  /\ ~ StronglySorted after (sorted_by_date_desc [week_a; week_b]).
Proof.
  repeat split; try reflexivity.
  intros H. apply StronglySorted_inv in H as [_ H].
  apply Forall_inv in H. discriminate.
Qed.

(** ** The temperature *)

Lemma SFeqb_refl_iff (t : spec_float) : SFeqb t t = false <-> t = S754_nan.
Proof.
  unfold SFeqb. destruct t as [sg|sg| |sg m e]; simpl.
  - split; discriminate.
  - destruct sg; split; discriminate.
  - split; reflexivity.
  - rewrite Z.compare_refl, Pos.compare_cont_refl.
    destruct sg; split; discriminate.
Qed.

Lemma SFltb_SFleb (a b : spec_float) : SFltb a b = true -> SFleb a b = true.
Proof.
  unfold SFltb, SFleb. destruct (SFcompare a b) as [[]|]; auto.
Qed.

Lemma clamp_cases (t : spec_float) :
  t <> S754_nan ->
  SFleb f_zero (py_max f_zero (py_min f_one t)) = true
  /\ SFleb (py_max f_zero (py_min f_one t)) f_one = true
  /\ (SFltb f_zero t = true -> SFltb t f_one = true ->
      py_max f_zero (py_min f_one t) = t)
  /\ (SFltb f_zero t = false -> py_max f_zero (py_min f_one t) = f_zero)
  /\ (SFltb t f_one = false -> py_max f_zero (py_min f_one t) = f_one).
Proof.
  intros Hnan. unfold py_max, py_min.
  destruct (SFltb t f_one) eqn:H1.
  - destruct (SFltb f_zero t) eqn:H0.
    + repeat split; auto; try discriminate; now apply SFltb_SFleb.
    + repeat split; auto; discriminate.
  - assert (H01 : SFltb f_zero f_one = true) by reflexivity.
    rewrite H01. repeat split; auto; try discriminate.
    intros H0. exfalso.
    destruct t as [sg|sg| |sg m e]; try discriminate; try contradiction.
    + destruct sg; discriminate.
    + destruct sg; discriminate.
Qed.

Lemma call_llm_try_trace (rt : Runtime) (model prompt : str)
      (max_tokens : Z) :
  trace (call_llm_try rt model prompt max_tokens)
  = [Acompletion (_parse_temperature rt) model prompt max_tokens].
Proof.
  unfold call_llm_try, getitem0, trace, bind, emit, ret, raise.
  destruct (acompletion rt _ _ _ _) as [e|resp]; [reflexivity|].
  destruct (attr_or_key resp K_choices) as [|[|c s']|[|x l]|[|kv d]|a];
    cbn; try reflexivity;
    match goal with
    | |- context [pytruthy (attr_or_key ?f K_message)] =>
        destruct (pytruthy (attr_or_key f K_message)); reflexivity
    end.
Qed.

(** C8.  The temperature is [0.5] when the variable is unset, when
    [float] raises on its value and when the value parses to NaN;
    otherwise it is the parsed number clamped to the interval from 0 to
    1: the number itself when it lies strictly between, [0.0] when it is
    not above 0, [1.0] when it is not below 1.  This is the temperature
    the request to the model carries. *)
Theorem parse_temperature_clamps (rt : Runtime) :
  (getenv rt ENV_TEMPERATURE = None -> _parse_temperature rt = f_half)
  /\ (forall val,
         getenv rt ENV_TEMPERATURE = Some val ->
         float_of_str rt val = None -> _parse_temperature rt = f_half)
  /\ (forall val,
         getenv rt ENV_TEMPERATURE = Some val ->
         float_of_str rt val = Some S754_nan ->
         _parse_temperature rt = f_half)
  /\ (forall val t,
         getenv rt ENV_TEMPERATURE = Some val ->
         float_of_str rt val = Some t -> t <> S754_nan ->
         SFleb f_zero (_parse_temperature rt) = true
         /\ SFleb (_parse_temperature rt) f_one = true
         /\ (SFltb f_zero t = true -> SFltb t f_one = true ->
             _parse_temperature rt = t)
         /\ (SFltb f_zero t = false -> _parse_temperature rt = f_zero)
         /\ (SFltb t f_one = false -> _parse_temperature rt = f_one))
  /\ (forall model prompt max_tokens,
         trace (call_llm_try rt model prompt max_tokens)
         = [Acompletion (_parse_temperature rt) model prompt max_tokens]).
Proof.
  unfold _parse_temperature.
  split; [intros ->; reflexivity|].
  split; [intros val -> ->; reflexivity|].
  split; [intros val -> ->; reflexivity|].
  split; [|apply call_llm_try_trace].
  intros val t -> -> Hnan.
  destruct (SFeqb t t) eqn:E.
  - simpl. now apply clamp_cases.
  - apply SFeqb_refl_iff in E. contradiction.
Qed.

(** With [TEMPERATURE=2.0] the request carries [1.0]. *)
Lemma parse_temperature_clamps_witness :
  _parse_temperature (rt_scenario (inr PNone)) = f_one.
Proof.
  refine (proj2 (proj2 (proj2 (proj2 (proj1 (proj2 (proj2 (proj2
           (parse_temperature_clamps (rt_scenario (inr PNone))))))
           (py "2.0") f_two eq_refl eq_refl _)))) eq_refl).
  discriminate.
Defined.

(** ** The model call *)

(** The three ways [call_llm] ends. *)
Lemma call_llm_cases (rt : Runtime) (model prompt : str) (max_tokens : Z) :
  let request := Acompletion (_parse_temperature rt) model prompt max_tokens in
  (exists v,
      outcome (call_llm_try rt model prompt max_tokens) = inr v
      /\ call_llm rt model prompt max_tokens = ([request], inr v))
  \/ (exists e,
         outcome (call_llm_try rt model prompt max_tokens) = inl e
         /\ is_Exception e = true
         /\ call_llm rt model prompt max_tokens
            = ([request;
                Print Stdout (ERROR_OCCURRED ++ format_exc rt e)],
               inr PNone))
  \/ (exists e,
         outcome (call_llm_try rt model prompt max_tokens) = inl e
         /\ is_Exception e = false
         /\ call_llm rt model prompt max_tokens = ([request], inl e)).
Proof.
  intros request. unfold call_llm.
  assert (Ht := call_llm_try_trace rt model prompt max_tokens).
  destruct (call_llm_try rt model prompt max_tokens) as [tr [e|v]].
  - unfold trace in Ht. simpl in Ht. subst tr.
    destruct (is_Exception e) eqn:He.
    + right. left. exists e. auto.
    + right. right. exists e. auto.
  - unfold trace in Ht. simpl in Ht. subst tr. left. exists v. auto.
Qed.


Lemma call_llm_caught (rt : Runtime) (model prompt : str) (max_tokens : Z)
      (e : exn) :
  outcome (call_llm_try rt model prompt max_tokens) = inl e ->
  is_Exception e = true ->
  call_llm rt model prompt max_tokens
  = ([Acompletion (_parse_temperature rt) model prompt max_tokens;
      Print Stdout (ERROR_OCCURRED ++ format_exc rt e)],
     inr PNone).
Proof.
  intros He Hex.
  destruct (call_llm_cases rt model prompt max_tokens)
    as [(v & Hv & Hc)|[(e' & He' & _ & Hc)|(e' & He' & Hex' & Hc)]];
    congruence.
Qed.




(** ** The runner *)

(** [_run] after the call, case by case. *)
Lemma run_after_call (rt : Runtime) (args : Args) (prompt : str) :
  _run rt args prompt
  = match call_llm rt (model args) prompt (max_tokens args) with
    | (tr, inl e) => (tr, inl e)
    | (tr, inr v) =>
        let done := Print Stdout (completion_message rt (out args)) in
        if pytruthy v then
          match v with
          | PStr s =>
              match write_fails rt (out args) s with
              | None => (tr ++ [WriteText (out args) s; done], inr tt)
              | Some id =>
                  (tr ++ [WriteText (out args) s], inl (WriteFailed id))
              end
          | _ => (tr, inl (WriteTypeError v))
          end
        else (tr ++ [done], inr tt)
    end.
Proof.
  unfold _run, bind, emit, ret, raise, write_text.
  destruct (call_llm rt (model args) prompt (max_tokens args))
    as [tr [e|v]]; [reflexivity|].
  destruct v as [|[|c s']|[|x l]|[|kv d]|a]; simpl;
    rewrite ?app_nil_r; try reflexivity.
  destruct (write_fails rt (out args) (c :: s')); reflexivity.
Qed.

Lemma call_llm_trace_quiet (rt : Runtime) (model prompt : str)
      (max_tokens : Z) :
  (forall path data,
      ~ In (WriteText path data) (trace (call_llm rt model prompt max_tokens)))
  /\ (forall v,
         outcome (call_llm rt model prompt max_tokens) = inr v ->
         pytruthy v = true ->
         trace (call_llm rt model prompt max_tokens)
         = [Acompletion (_parse_temperature rt) model prompt max_tokens])
  /\ (forall e,
         outcome (call_llm rt model prompt max_tokens) = inl e ->
         trace (call_llm rt model prompt max_tokens)
         = [Acompletion (_parse_temperature rt) model prompt max_tokens]).
Proof.
  destruct (call_llm_cases rt model prompt max_tokens)
    as [(v & _ & Hc)|[(e & _ & _ & Hc)|(e & _ & _ & Hc)]];
    rewrite Hc; unfold trace, outcome; simpl; repeat split;
    try discriminate; try reflexivity;
    try (intros path data H; intuition discriminate).
  intros v H. injection H as <-. discriminate.
Qed.

Lemma run_written (rt : Runtime) (args : Args) (prompt data : str) :
  outcome (call_llm rt (model args) prompt (max_tokens args))
  = inr (PStr data) ->
  data <> [] ->
  write_fails rt (out args) data = None ->
  _run rt args prompt
  = (trace (call_llm rt (model args) prompt (max_tokens args))
     ++ [WriteText (out args) data;
         Print Stdout (completion_message rt (out args))],
     inr tt).
Proof.
  intros Hout Hne Hw. rewrite run_after_call.
  destruct (call_llm rt (model args) prompt (max_tokens args))
    as [tr [e|v]]; unfold trace, outcome in *; simpl in *; [discriminate|].
  injection Hout as ->. destruct data; [contradiction|].
  simpl. now rewrite Hw.
Qed.

Lemma run_calls_write (rt : Runtime) (args : Args) (prompt data : str) :
  outcome (call_llm rt (model args) prompt (max_tokens args))
  = inr (PStr data) ->
  data <> [] ->
  In (WriteText (out args) data) (trace (_run rt args prompt)).
Proof.
  intros Hout Hne. rewrite run_after_call.
  destruct (call_llm rt (model args) prompt (max_tokens args))
    as [tr [e|v]]; unfold trace, outcome in *; simpl in *; [discriminate|].
  injection Hout as ->. destruct data; [contradiction|]. simpl.
  destruct (write_fails rt (out args) (c :: data)); simpl;
    apply in_or_app; right; now left.
Qed.

(** C5 (as amended).  [_run] calls [write_text] only when [call_llm]
    returned a non-empty string, with that string, unchanged, and the
    output path; when [call_llm] returned [None], as it does after a
    caught exception or for an answer without content, or returned the
    empty string, nothing is written.  The completion message is printed,
    last, exactly when [_run] ends normally: after [None] or the empty
    string, and after a non-empty string whose write succeeded.  When the
    write raises, when [call_llm] lets an exception through and when it
    returns a true value that is not a string, [_run] ends with that
    exception and has printed nothing. *)
Theorem run_writes_only_nonempty_result
        (rt : Runtime) (args : Args) (prompt : str) :
  let called := call_llm rt (model args) prompt (max_tokens args) in
  let done := Print Stdout (completion_message rt (out args)) in
  (forall path data,
      In (WriteText path data) (trace (_run rt args prompt)) ->
      path = out args /\ data <> [] /\ outcome called = inr (PStr data))
  /\ (forall data,
         outcome called = inr (PStr data) -> data <> [] ->
         write_fails rt (out args) data = None ->
         _run rt args prompt
         = (trace called ++ [WriteText (out args) data; done], inr tt))
  /\ (forall data id,
         outcome called = inr (PStr data) -> data <> [] ->
         write_fails rt (out args) data = Some id ->
         _run rt args prompt
         = (trace called ++ [WriteText (out args) data],
            inl (WriteFailed id)))
  /\ (outcome called = inr PNone \/ outcome called = inr (PStr []) ->
      _run rt args prompt = (trace called ++ [done], inr tt))
  /\ (forall e,
         outcome (call_llm_try rt (model args) prompt (max_tokens args))
         = inl e ->
         is_Exception e = true -> outcome called = inr PNone)
  /\ (forall resp first,
         acompletion rt (_parse_temperature rt) (model args) prompt
                     (max_tokens args) = inr resp ->
         getitem0 (attr_or_key resp K_choices) = ret first ->
         pytruthy (attr_or_key resp K_choices) = true ->
         pytruthy (attr_or_key first K_message) = true ->
         outcome called
         = inr (attr_or_key (attr_or_key first K_message) K_content))
  /\ (forall e, outcome called = inl e ->
                _run rt args prompt = (trace called, inl e))
  /\ (forall v,
         outcome called = inr v -> pytruthy v = true ->
         (forall s, v <> PStr s) ->
         _run rt args prompt = (trace called, inl (WriteTypeError v)))
  /\ (outcome (_run rt args prompt) = inr tt ->
      exists before, trace (_run rt args prompt) = before ++ [done])
  /\ (forall e text,
         outcome (_run rt args prompt) = inl e ->
         ~ In (Print Stdout text) (trace (_run rt args prompt))).
Proof.
  intros called done.
  destruct (call_llm_trace_quiet rt (model args) prompt (max_tokens args))
    as (Htr & Htruthy & Hraised).
  fold called in Htr, Htruthy, Hraised.
  assert (Hrun := run_after_call rt args prompt). fold called in Hrun.
  fold done in Hrun.
  split; [|split; [|split; [|split; [|split; [|split; [|split; [|split;
    [|split]]]]]]]].
  - intros path data. rewrite Hrun.
    destruct called as [tr [e|v]] eqn:Hcalled; unfold trace, outcome in *;
      simpl in *.
    + intros H. now apply Htr in H.
    + destruct v as [|[|c s']|[|x l]|[|kv d]|a]; simpl;
        try (destruct (write_fails rt (out args) (c :: s')));
        unfold trace; simpl; intros H;
        try (apply in_app_or in H as [H|H];
             [now apply Htr in H | simpl in H]);
        try (now apply Htr in H);
        try (destruct H as [H|[H|[]]]; [|discriminate]);
        try (destruct H as [H|[]]);
        try discriminate;
        injection H as <- <-; repeat split; discriminate.
  - intros data Hout Hne Hw. now apply run_written.
  - intros data id Hout Hne Hw. rewrite Hrun.
    destruct called as [tr [e|v]]; unfold trace, outcome in *; simpl in *;
      [discriminate|].
    injection Hout as ->. destruct data; [contradiction|].
    simpl. now rewrite Hw.
  - intros Hout. rewrite Hrun.
    destruct called as [tr [e|v]]; unfold trace, outcome in *; simpl in *;
      [destruct Hout; discriminate|].
    destruct Hout as [H|H]; injection H as ->; reflexivity.
  - intros e He Hex. subst called.
    now rewrite (call_llm_caught rt (model args) prompt (max_tokens args)
                                 e He Hex).
  - intros resp first Hresp Hfirst Hchoices Hmessage. subst called.
    unfold call_llm, call_llm_try, outcome, bind, emit.
    rewrite Hresp. simpl. rewrite Hchoices. simpl. rewrite Hfirst.
    unfold ret. simpl. rewrite Hmessage. reflexivity.
  - intros e Hout. rewrite Hrun.
    destruct called as [tr [e'|v]]; unfold trace, outcome in *; simpl in *;
      congruence.
  - intros v Hout Hv Hstr. rewrite Hrun.
    destruct called as [tr [e'|v']]; unfold trace, outcome in *; simpl in *;
      [discriminate|].
    injection Hout as ->. rewrite Hv.
    destruct v as [|s| | |]; try reflexivity. now destruct (Hstr s).
  - rewrite Hrun.
    destruct called as [tr [e|v]]; unfold trace, outcome in *; simpl in *;
      [discriminate|].
    destruct (pytruthy v).
    + destruct v as [|s| | |]; try discriminate.
      destruct (write_fails rt (out args) s); [discriminate|]. intros _.
      exists (tr ++ [WriteText (out args) s]).
      simpl. now rewrite <- app_assoc.
    + intros _. now exists tr.
  - intros e text. rewrite Hrun.
    destruct called as [tr [e'|v]] eqn:Hcalled; unfold trace, outcome in *;
      simpl in *.
    + intros _. rewrite (Hraised e' eq_refl). intros [H|[]]. discriminate.
    + destruct (pytruthy v) eqn:Hv; [|discriminate].
      specialize (Htruthy v eq_refl Hv). subst tr.
      destruct v as [|s| | |]; simpl;
        try (destruct (write_fails rt (out args) s); [|discriminate]);
        intros _ H; simpl in H; intuition discriminate.
Qed.

(** An answer without a content field: nothing is written and the
    completion message is printed. *)
Lemma run_writes_only_nonempty_result_witness :
  _run (rt_answering (inr response_without_content)) (scenario_args false)
       (py "P")
  = ([Acompletion f_half (py "m") (py "P") 2000;
      Print Stdout (REPORT_WRITTEN_TO ++ py "department_report.md")],
     inr tt).
Proof.
  exact (proj1 (proj2 (proj2 (proj2
           (run_writes_only_nonempty_result
              (rt_answering (inr response_without_content))
              (scenario_args false) (py "P")))))
         (or_introl eq_refl)).
Defined.

(** C5 (as stated) fails when the write raises, as it does for an output
    path in a directory that does not exist: the model returned a
    non-empty string, [write_text] was called and raised, and the
    completion message was not printed. *)
Lemma run_without_completion_message :
  _run (rt_unwritable (inr (response_with (PStr (py "REPORT")))))
       (scenario_args false) (py "P")
  = ([Acompletion f_half (py "m") (py "P") 2000;
      WriteText (py "department_report.md") (py "REPORT")],
     inl (WriteFailed 2))
  /\ ~ In (Print Stdout (REPORT_WRITTEN_TO ++ py "department_report.md"))
          (trace (_run (rt_unwritable
                          (inr (response_with (PStr (py "REPORT")))))
                       (scenario_args false) (py "P"))).
Proof.
  split; [reflexivity|].
  intros [H|[H|[]]]; discriminate.
Qed.

Lemma run_ignores_dry_run (rt : Runtime) (args : Args) (b : bool)
      (prompt : str) :
  _run rt (with_dry_run b args) prompt = _run rt args prompt.
Proof. reflexivity. Qed.

Lemma run_trace_starts_with_request (rt : Runtime) (args : Args)
      (prompt : str) :
  exists rest,
    trace (_run rt args prompt)
    = Acompletion (_parse_temperature rt) (model args) prompt
                  (max_tokens args) :: rest
    /\ existsb is_Acompletion rest = false.
Proof.
  rewrite run_after_call.
  destruct (call_llm_cases rt (model args) prompt (max_tokens args))
    as [(v & _ & Hc)|[(e & _ & _ & Hc)|(e & _ & _ & Hc)]]; rewrite Hc.
  - destruct v as [|[|c s']|[|x l]|[|kv d]|a]; simpl;
      try (destruct (write_fails rt (out args) (c :: s')));
      unfold trace; simpl; eexists; split; reflexivity.
  - unfold trace. simpl. eexists; split; reflexivity.
  - unfold trace. simpl. eexists; split; reflexivity.
Qed.

Lemma prompt_of_ignores_dry_run (rt : Runtime) (args : Args) (b : bool)
      (member_markdowns : list str) :
  prompt_of rt (with_dry_run b args) member_markdowns
  = prompt_of rt args member_markdowns.
Proof. unfold prompt_of. reflexivity. Qed.

Lemma with_dry_run_fields (b : bool) (args : Args) :
  source (with_dry_run b args) = source args
  /\ dry_run (with_dry_run b args) = b.
Proof. split; reflexivity. Qed.

(** The runner, once the source folder exists and holds reports. *)
Lemma main_with_reports (rt : Runtime) (args : Args) (entries : list Path)
      (m : str) (ms : list str) :
  folder_at rt (source args) = Some entries ->
  gather_member_markdowns (Some entries) = m :: ms ->
  main rt args
  = ((if dry_run args then [Print Stdout (prompt_of rt args (m :: ms))]
      else [])
     ++ trace (_run rt args (prompt_of rt args (m :: ms))),
     match outcome (_run rt args (prompt_of rt args (m :: ms))) with
     | inr _ => Completed
     | inl e => Uncaught e
     end).
Proof.
  intros Hfolder Hgather. unfold main. rewrite Hfolder, Hgather.
  cbv zeta. unfold trace, outcome.
  destruct (_run rt args (prompt_of rt args (m :: ms))) as [tr [e|u]];
    reflexivity.
Qed.

(** C7.  With the dry-run flag set the runner prints the prompt and then
    does exactly what it does without the flag: it sends the one request
    to the model, writes the output file when the result is a non-empty
    string, and ends the same way. *)
Theorem dry_run_still_invokes_model
        (rt : Runtime) (args : Args) (entries : list Path)
        (m : str) (ms : list str) :
  folder_at rt (source args) = Some entries ->
  gather_member_markdowns (Some entries) = m :: ms ->
  let prompt := prompt_of rt args (m :: ms) in
  fst (main rt (with_dry_run true args))
  = Print Stdout prompt :: trace (_run rt args prompt)
  /\ fst (main rt (with_dry_run false args)) = trace (_run rt args prompt)
  /\ snd (main rt (with_dry_run true args))
     = snd (main rt (with_dry_run false args))
  /\ (exists rest,
         trace (_run rt args prompt)
         = Acompletion (_parse_temperature rt) (model args) prompt
                       (max_tokens args) :: rest
         /\ existsb is_Acompletion rest = false)
  /\ (forall data,
         outcome (call_llm rt (model args) prompt (max_tokens args))
         = inr (PStr data) ->
         data <> [] ->
         In (WriteText (out args) data)
            (fst (main rt (with_dry_run true args)))).
Proof.
  intros Hfolder Hgather prompt.
  assert (Hmain : forall b,
             main rt (with_dry_run b args)
             = ((if b then [Print Stdout prompt] else [])
                ++ trace (_run rt args prompt),
                match outcome (_run rt args prompt) with
                | inr _ => Completed
                | inl e => Uncaught e
                end)).
  { intros b. destruct (with_dry_run_fields b args) as [Hs Hd].
    rewrite (main_with_reports rt (with_dry_run b args) entries m ms)
      by (rewrite ?Hs; assumption).
    now rewrite Hd, prompt_of_ignores_dry_run, run_ignores_dry_run. }
  rewrite !Hmain. simpl.
  split; [reflexivity|]. split; [reflexivity|]. split; [reflexivity|].
  split; [apply run_trace_starts_with_request|].
  intros data Hout Hne. right.
  now apply run_calls_write.
Qed.

(** The scenario of the specification, run with the flag: the prompt is
    printed first and the answer of the model is written all the same. *)
Lemma dry_run_still_invokes_model_witness :
  In (WriteText (py "department_report.md") (py "REPORT"))
     (fst (main (rt_scenario (inr (response_with (PStr (py "REPORT")))))
                (with_dry_run true (scenario_args false)))).
Proof.
  assert (Hgather : gather_member_markdowns scenario_source
                    = scenario_first :: scenario_rest)
    by (vm_compute; reflexivity).
  refine (proj2 (proj2 (proj2 (proj2
            (dry_run_still_invokes_model
               (rt_scenario (inr (response_with (PStr (py "REPORT")))))
               (scenario_args false) _ scenario_first scenario_rest
               eq_refl Hgather))))
          (py "REPORT") eq_refl _).
  discriminate.
Defined.

(** Two weeks of distinct dates come out strictly descending. *)
Lemma build_few_shot_examples_descending_witness :
  StronglySorted after (sorted_by_date_desc [week_c; week_a])
  /\ sorted_by_date_desc [week_c; week_a] = [week_a; week_c].
Proof.
  split; [|reflexivity].
  refine (proj1 (proj2 (proj2 (proj2 (proj2
            (build_few_shot_examples_descending [week_c; week_a]))))) _).
  repeat constructor; simpl; intuition discriminate.
Defined.

(* ================================================================= *)
(** * Further properties of the code *)

(** ** Text extraction *)

Lemma lstrip_head (s r : str) (c : codepoint) :
  lstrip s = c :: r -> isspace c = false.
Proof.
  induction s as [|x s IH]; simpl; [discriminate|].
  destruct (isspace x) eqn:Hx; [exact IH|].
  intros H. injection H as <- _. exact Hx.
Qed.

Lemma lstrip_split (s : str) :
  exists pre, s = pre ++ lstrip s /\ forallb isspace pre = true.
Proof.
  induction s as [|x s (pre & E & Hpre)]; simpl.
  - exists []. auto.
  - destruct (isspace x) eqn:Hx.
    + exists (x :: pre). simpl. rewrite Hx, Hpre.
      split; [now f_equal | reflexivity].
    + exists []. auto.
Qed.

Lemma lstrip_fixed (s : str) :
  (forall c r, s = c :: r -> isspace c = false) -> lstrip s = s.
Proof.
  destruct s as [|x s]; [reflexivity|]. intros H. simpl.
  now rewrite (H x s eq_refl).
Qed.

Lemma rstrip_split (s : str) :
  exists post, s = rstrip s ++ post /\ forallb isspace post = true.
Proof.
  destruct (lstrip_split (rev s)) as (pre & E & Hpre).
  exists (rev pre). split.
  - unfold rstrip. rewrite <- rev_app_distr, <- E. now rewrite rev_involutive.
  - rewrite forallb_forall in *. intros c Hc. apply Hpre.
    now apply in_rev.
Qed.

Lemma rstrip_last (s r : str) (c : codepoint) :
  rstrip s = r ++ [c] -> isspace c = false.
Proof.
  unfold rstrip. intros H. apply (f_equal (@rev _)) in H.
  rewrite rev_involutive, rev_app_distr in H. simpl in H.
  now apply lstrip_head in H.
Qed.

Lemma strip_head (s r : str) (c : codepoint) :
  strip s = c :: r -> isspace c = false.
Proof.
  unfold strip. intros H.
  destruct (rstrip_split (lstrip s)) as (post & E & _).
  rewrite H in E. simpl in E. now apply lstrip_head in E.
Qed.

Lemma strip_idempotent (s : str) : strip (strip s) = strip s.
Proof.
  unfold strip at 1.
  rewrite (lstrip_fixed (strip s)) by (intros c r; apply strip_head).
  unfold strip, rstrip. now rewrite rev_involutive,
    (lstrip_fixed (lstrip (rev (lstrip s))))
    by (intros c r; apply lstrip_head).
Qed.

Lemma strip_split (s : str) :
  exists pre post,
    s = pre ++ strip s ++ post
    /\ forallb isspace pre = true /\ forallb isspace post = true.
Proof.
  destruct (lstrip_split s) as (pre & E1 & Hpre).
  destruct (rstrip_split (lstrip s)) as (post & E2 & Hpost).
  exists pre, post. unfold strip. rewrite <- E2. auto.
Qed.

(** X1.  The text [load_markdown_from_file] returns is trimmed: it
    neither starts nor ends with a whitespace character and stripping it
    again changes nothing.  For a readable [.md] file it is the text of
    the file with nothing but whitespace removed at both ends; for a file
    that cannot be read or converted, and for any other suffix, it is
    empty. *)
Theorem load_markdown_from_file_trimmed (p : Path) :
  strip (load_markdown_from_file p) = load_markdown_from_file p
  /\ (forall c r, load_markdown_from_file p = c :: r -> isspace c = false)
  /\ (forall c r, load_markdown_from_file p = r ++ [c] -> isspace c = false)
  /\ (forall text,
         lower (suffix (path_name p)) = SUFFIX_MD ->
         path_read_text p = Some text ->
         exists pre post,
           text = pre ++ load_markdown_from_file p ++ post
           /\ forallb isspace pre = true /\ forallb isspace post = true)
  /\ (path_read_text p = None -> path_mammoth p = None ->
      load_markdown_from_file p = []).
Proof.
  assert (Hshape : load_markdown_from_file p = []
                   \/ exists x, load_markdown_from_file p = strip x).
  { unfold load_markdown_from_file, convert_docx_to_markdown.
    destruct (str_eqb _ SUFFIX_MD).
    - destruct (path_read_text p) as [text|]; eauto.
    - destruct (_ || _); [|auto].
      destruct (path_mammoth p) as [value|]; eauto. }
  split; [|split; [|split; [|split]]].
  - destruct Hshape as [->|(x & ->)]; [reflexivity|apply strip_idempotent].
  - intros c r H. destruct Hshape as [E|(x & E)]; rewrite E in H;
      [discriminate | now apply strip_head in H].
  - intros c r H. destruct Hshape as [E|(x & E)]; rewrite E in H.
    + destruct r; discriminate.
    + unfold strip in H. now apply rstrip_last in H.
  - intros text Hsuf Hread. unfold load_markdown_from_file.
    rewrite Hsuf, Hread. simpl. apply strip_split.
  - intros Hread Hconv.
    unfold load_markdown_from_file, convert_docx_to_markdown.
    rewrite Hread, Hconv. destruct (str_eqb _ SUFFIX_MD); [reflexivity|].
    destruct (_ || _); reflexivity.
Qed.

Lemma rfind_absent (c : codepoint) (s : str) : ~ In c s -> rfind c s = None.
Proof.
  induction s as [|x s IH]; simpl; [reflexivity|]. intros H.
  rewrite IH by tauto. destruct (N.eqb_spec x c) as [->|_]; [|reflexivity].
  exfalso. apply H. now left.
Qed.

Lemma rfind_last (c : codepoint) (pre tail : str) :
  ~ In c tail -> rfind c (pre ++ c :: tail) = Some (length pre).
Proof.
  intros H. induction pre as [|x pre IH]; simpl.
  - now rewrite (rfind_absent c tail H), N.eqb_refl.
  - now rewrite IH.
Qed.

Lemma skipn_length_app (pre rest : str) :
  skipn (length pre) (pre ++ rest) = rest.
Proof. induction pre as [|x pre IH]; [reflexivity | exact IH]. Qed.

Lemma suffix_after_last_dot (pre tail : str) :
  pre <> [] -> tail <> [] -> ~ In 46 tail ->
  suffix (pre ++ 46 :: tail) = 46 :: tail.
Proof.
  intros Hpre Htail Hdot. unfold suffix.
  assert (Hr := rfind_last 46 pre tail Hdot).
  assert (H0 : Nat.ltb 0 (length pre) = true).
  { apply Nat.ltb_lt. destruct pre; [contradiction | simpl; lia]. }
  assert (H1 : Nat.ltb (length pre) (length (pre ++ 46 :: tail) - 1) = true).
  { apply Nat.ltb_lt. rewrite length_app. simpl.
    destruct tail; [contradiction | simpl; lia]. }
  assert (Hs := skipn_length_app pre (46 :: tail)).
  unfold str, codepoint in *. now rewrite Hr, H0, H1.
Qed.

Lemma suffix_of_report_file (name d ext z : str) :
  In ext EXT_ALTERNATIVES -> z = [] \/ z = nl ->
  suffix (report_file_name name d ext ++ z) = 46 :: ext ++ z.
Proof.
  intros Hin Hz. unfold report_file_name.
  replace ((name ++ REPORT_MARK ++ d ++ [46] ++ ext) ++ z)
    with ((name ++ REPORT_MARK ++ d) ++ 46 :: (ext ++ z))
    by (now rewrite <- !app_assoc).
  apply suffix_after_last_dot.
  - unfold REPORT_MARK. destruct name; discriminate.
  - unfold EXT_ALTERNATIVES in Hin. simpl in Hin.
    destruct Hin as [<-|[<-|[<-|[]]]]; discriminate.
  - unfold EXT_ALTERNATIVES in Hin. simpl in Hin.
    destruct Hin as [<-|[<-|[<-|[]]]]; destruct Hz as [->| ->]; simpl;
      intuition discriminate.
Qed.

(** X2.  For a file whose name the member-report pattern accepts, the
    extension group decides how its text is extracted: [md] files are
    read as text, [docx] and [doc] files go through the converter.  A
    file accepted with a newline after the extension has the suffix
    [.md\n] (or [.doc\n], [.docx\n]) and its text is always empty, so
    it is yielded by [iter_member_reports] and contributes no chunk. *)
Theorem accepted_file_extraction (p : Path) (name d ext : str) :
  accepted_by_pattern (path_name p) name d ext ->
  (path_name p = report_file_name name d ext ->
   load_markdown_from_file p
   = if str_eqb ext (py "md")
     then match path_read_text p with
          | Some text => strip text
          | None => []
          end
     else match path_mammoth p with
          | Some value => strip value
          | None => []
          end)
  /\ (path_name p = report_file_name name d ext ++ nl ->
      load_markdown_from_file p = []
      /\ forall entries, gather_member_markdowns (Some (p :: entries))
                         = gather_member_markdowns (Some entries)).
Proof.
  intros (z & E & _ & _ & _ & _ & Hin & Hz).
  assert (Hload : forall z', z' = [] \/ z' = nl ->
            path_name p = report_file_name name d ext ++ z' ->
            load_markdown_from_file p
            = if str_eqb z' []
              then if str_eqb ext (py "md")
                   then match path_read_text p with
                        | Some text => strip text
                        | None => []
                        end
                   else match path_mammoth p with
                        | Some value => strip value
                        | None => []
                        end
              else []).
  { intros z' Hz' E'. unfold load_markdown_from_file, convert_docx_to_markdown.
    rewrite E', (suffix_of_report_file name d ext z' Hin Hz').
    unfold EXT_ALTERNATIVES in Hin. simpl in Hin.
    destruct Hin as [<-|[<-|[<-|[]]]]; destruct Hz' as [->| ->]; reflexivity. }
  split.
  - intros E'. rewrite (Hload [] (or_introl eq_refl)); [reflexivity|].
    now rewrite app_nil_r.
  - intros E'. assert (Hempty := Hload nl (or_intror eq_refl) E').
    simpl in Hempty. split; [exact Hempty|].
    intros entries. unfold gather_member_markdowns, iter_member_reports.
    simpl. destruct (path_is_file p); simpl; [|reflexivity].
    destruct (MEMBER_REPORT_REGEX_match (path_name p)); [|reflexivity].
    simpl. now rewrite Hempty.
Qed.

(** A file named with a trailing newline is matched and gives no text. *)
Lemma accepted_file_extraction_witness :
  MEMBER_REPORT_REGEX_match name_with_trailing_newline
  = Some {| group_name := py "A"; group_date := py "20240101";
            group_ext := py "md" |}
  /\ load_markdown_from_file (plain_file name_with_trailing_newline (py "x"))
     = [].
Proof.
  assert (Hacc : accepted_by_pattern name_with_trailing_newline
                   (py "A") (py "20240101") (py "md")).
  { now apply MEMBER_REPORT_REGEX_match_spec. }
  split; [reflexivity|].
  exact (proj1 (proj2 (accepted_file_extraction
                  (plain_file name_with_trailing_newline (py "x"))
                  (py "A") (py "20240101") (py "md") Hacc) eq_refl)).
Defined.

(** ** One directory of examples *)

Lemma setdefault_append_values (by_date : Dict (list str)) (k x : str) :
  Permutation (concat (map snd (setdefault_append by_date k x)))
              (concat (map snd by_date) ++ [x]).
Proof.
  induction by_date as [|[k' xs] rest IH]; simpl; [reflexivity|].
  destruct (str_eqb k' k); simpl.
  - rewrite <- !app_assoc. apply Permutation_app_head, Permutation_app_comm.
  - rewrite <- app_assoc. now apply Permutation_app_head.
Qed.

Lemma group_by_date_values (reports : list (str * str * Path))
      (start : Dict (list str)) :
  Permutation
    (concat (map snd (fold_left by_date_step reports start)))
    (concat (map snd start)
     ++ flat_map
          (fun r : str * str * Path =>
             let '(name, _, path) := r in
             let text := load_markdown_from_file path in
             if negb (truthy text) then [] else [member_chunk name text])
          reports).
Proof.
  revert start. induction reports as [|[[name d] p] rest IH]; intros start.
  - simpl. now rewrite app_nil_r.
  - cbn [fold_left flat_map]. rewrite IH. unfold by_date_step.
    destruct (truthy (load_markdown_from_file p)); simpl.
    + rewrite setdefault_append_values, <- app_assoc. reflexivity.
    + reflexivity.
Qed.

(** X3.  Grouping by date neither loses nor invents a chunk: the chunks
    [collect_examples] files under the dates of a directory are, taken
    together, a rearrangement of the chunks [gather_member_markdowns]
    returns for the same directory, and under each date they stand in
    listing order; a date is a key only if it has a chunk. *)
Theorem group_by_date_partitions_chunks (dir : Folder) :
  Permutation
    (concat (map snd (group_by_date (iter_member_reports dir))))
    (gather_member_markdowns dir)
  /\ NoDup (map fst (group_by_date (iter_member_reports dir)))
  /\ (forall d chunks,
         In (d, chunks) (group_by_date (iter_member_reports dir)) ->
         chunks = chunks_of d (iter_member_reports dir) /\ chunks <> []).
Proof.
  split; [apply (group_by_date_values _ [])|].
  split; [apply group_by_date_get; exact []|].
  intros d chunks Hin.
  destruct (group_by_date_get (iter_member_reports dir) d) as [Hnd Hget].
  apply (In_dict_get _ _ _ Hnd) in Hin. rewrite Hget in Hin.
  destruct (chunks_of d (iter_member_reports dir)); [discriminate|].
  injection Hin as <-. split; [reflexivity | discriminate].
Qed.

Lemma dated_singletons_NoDup (weeks : list ExampleWeek) :
  (forall d, (length (dated d weeks) <= 1)%nat) -> NoDup (map date weeks).
Proof.
  induction weeks as [|w l IH]; intros H; simpl; constructor.
  - intros Hin. apply in_map_iff in Hin as (w' & E & Hw').
    specialize (H (date w)). unfold dated in H. simpl in H.
    rewrite str_eqb_refl in H. simpl in H.
    assert (Hin : In w' (filter (fun x => str_eqb (date x) (date w)) l)).
    { apply filter_In. split; [assumption | now apply str_eqb_eq]. }
    destruct (filter _ l); [contradiction | simpl in H; lia].
  - apply IH. intros d. specialize (H d). unfold dated in *. simpl in H.
    destruct (str_eqb (date w) d); simpl in H; lia.
Qed.

Lemma collect_examples_dated_length (dir : Folder) (d : str) :
  (length (dated d (collect_examples dir)) <= 1)%nat.
Proof.
  destruct dir as [entries|]; [|simpl; lia].
  rewrite collect_examples_dated.
  destruct (chunks_of d _); [simpl; lia|].
  destruct (truthy _); simpl; lia.
Qed.

(** X4.  [collect_examples] returns at most one week per date.  There
    is a week for a date exactly when some yielded report of that date
    has a non-empty text and the team text selected for the date is not
    empty; the week then holds the chunks of the date in listing order
    and that team text. *)
Theorem collect_examples_one_week_per_date (entries : list Path) :
  NoDup (map date (collect_examples (Some entries)))
  /\ (forall d,
         dated d (collect_examples (Some entries))
         = match chunks_of d (iter_member_reports (Some entries)) with
           | [] => []
           | chunks =>
               if truthy (select_team_text d (team_candidates_of entries))
               then [{| date := d; member_reports := chunks;
                        team_report :=
                          select_team_text d (team_candidates_of entries) |}]
               else []
           end).
Proof.
  split.
  - apply dated_singletons_NoDup. intros d.
    apply collect_examples_dated_length.
  - apply collect_examples_dated.
Qed.

Lemma weeks_of_no_candidates (by_date : Dict (list str)) :
  weeks_of by_date [] = [].
Proof.
  induction by_date as [|[d chunks] rest IH]; simpl; auto.
Qed.

Lemma first_dated_candidate_text_none (d : str) (cands : list Path) :
  (forall q, In q cands -> contains d (path_name q) = false) ->
  first_dated_candidate_text d cands = [].
Proof.
  induction cands as [|q rest IH]; intros H; simpl; [reflexivity|].
  rewrite (H q (or_introl eq_refl)). apply IH.
  intros q' Hq'. apply H. now right.
Qed.

(** X5.  Without a team report there are no example weeks:
    [collect_examples] returns the empty list for a directory that does
    not exist and for one in which no regular file has the marker
    [之工作報告] in its name, whatever member reports it holds. *)
Theorem collect_examples_needs_team_candidate :
  collect_examples None = []
  /\ (forall entries,
         (forall p, In p entries -> path_is_file p = true ->
                    contains TEAM_REPORT_HINT (path_name p) = false) ->
         collect_examples (Some entries) = []).
Proof.
  split; [reflexivity|]. intros entries H. unfold collect_examples.
  assert (E : team_candidates_of entries = []).
  { unfold team_candidates_of. induction entries as [|q rest IH];
      [reflexivity|]. simpl.
    destruct (path_is_file q) eqn:Hf; simpl.
    - rewrite (H q (or_introl eq_refl) Hf). apply IH.
      intros p Hp. apply H. now right.
    - apply IH. intros p Hp. apply H. now right. }
  rewrite E. apply weeks_of_no_candidates.
Qed.

(** X6.  When no candidate has the date in its name, the team report of
    the week is the text of the first candidate of the listing: all such
    dates of a directory share one team report. *)
Theorem undated_candidates_fall_back_to_first
        (entries : list Path) (first : Path) (others : list Path)
        (w : ExampleWeek) :
  team_candidates_of entries = first :: others ->
  (forall q, In q (first :: others) ->
             contains (date w) (path_name q) = false) ->
  In w (collect_examples (Some entries)) ->
  team_report w = load_markdown_from_file first.
Proof.
  intros Hc Hnone Hw. simpl in Hw. apply weeks_of_In in Hw as (_ & Ht & _).
  rewrite Ht, Hc. unfold select_team_text.
  now rewrite (first_dated_candidate_text_none _ _ Hnone).
Qed.

(** Two weeks, one undated department report: the week of 18 December
    gets its text (and so does the other one). *)
Lemma undated_candidates_fall_back_to_first_witness :
  team_report
    {| date := py "20231218";
       member_reports := [member_chunk (py "Alice") (py "w1")];
       team_report := py "F" |}
  = load_markdown_from_file (plain_file (py "部門之工作報告.md") (py "F"))
  /\ map team_report (collect_examples (Some undated_team_dir))
     = [py "F"; py "F"].
Proof.
  split; [|reflexivity].
  refine (undated_candidates_fall_back_to_first undated_team_dir
            (plain_file (py "部門之工作報告.md") (py "F")) [] _
            eq_refl _ (or_introl eq_refl)).
  intros q [<-|[]]. reflexivity.
Defined.

(** ** Several directories of examples *)

Lemma merge_week_fresh (m : Dict ExampleWeek) (w : ExampleWeek) :
  ~ In (date w) (map fst m) -> merge_week m w = m ++ [(date w, w)].
Proof.
  induction m as [|[k e] rest IH]; simpl; intros H.
  - now destruct w.
  - destruct (str_eqb k (date w)) eqn:E.
    + apply str_eqb_eq in E. exfalso. apply H. now left.
    + rewrite IH; [reflexivity|]. intros Hin. apply H. now right.
Qed.

Lemma merge_distinct_dates (ws : list ExampleWeek) (m : Dict ExampleWeek) :
  NoDup (map fst m ++ map date ws) ->
  fold_left merge_week ws m = m ++ map (fun w => (date w, w)) ws.
Proof.
  revert m. induction ws as [|w ws IH]; intros m Hnd; simpl.
  - now rewrite app_nil_r.
  - simpl in Hnd. assert (Hfresh : ~ In (date w) (map fst m)).
    { apply NoDup_remove_2 in Hnd. intros Hin. apply Hnd.
      apply in_or_app. now left. }
    rewrite (merge_week_fresh m w Hfresh), IH.
    + now rewrite <- app_assoc.
    + rewrite map_app, <- app_assoc. exact Hnd.
Qed.

(** X7.  For a single directory the merge changes nothing:
    [collect_examples_from_dirs [dir]] is the list [collect_examples dir]
    returns, week by week and in the same order. *)
Theorem collect_examples_from_dirs_single (dir : Folder) :
  collect_examples_from_dirs [dir] = collect_examples dir.
Proof.
  rewrite collect_examples_from_dirs_eq. unfold weeks_in_order. simpl.
  rewrite app_nil_r, merge_distinct_dates.
  - simpl. rewrite map_map. simpl. apply map_id.
  - simpl. apply dated_singletons_NoDup. intros d.
    apply collect_examples_dated_length.
Qed.

Lemma add_new_absorbed (existing incoming : list str) :
  incl incoming existing -> add_new existing incoming = existing.
Proof.
  unfold add_new. induction incoming as [|x l IH]; intros H; simpl;
    [reflexivity|].
  assert (Hx : existsb (str_eqb x) existing = true).
  { apply existsb_str_eqb. apply H. now left. }
  rewrite Hx. apply IH. intros y Hy. apply H. now right.
Qed.

Lemma merge_week_absorbed (m : Dict ExampleWeek) (w e : ExampleWeek) :
  dict_get m (date w) = Some e ->
  incl (member_reports w) (member_reports e) -> team_report e <> [] ->
  merge_week m w = m.
Proof.
  intros Hget Hincl Hteam. induction m as [|[k e'] rest IH]; simpl in *;
    [discriminate|].
  destruct (str_eqb k (date w)).
  - injection Hget as ->. f_equal. f_equal. unfold merge_into.
    rewrite (proj1 (append_unseen_add_new _ _ _ (fun x => iff_refl _))).
    rewrite (add_new_absorbed _ _ Hincl).
    apply truthy_true in Hteam. rewrite Hteam. simpl. now destruct e.
  - f_equal. now apply IH.
Qed.

Lemma merge_again (ws more : list ExampleWeek) :
  (forall w, In w ws -> team_report w <> []) ->
  incl more ws ->
  fold_left merge_week more (fold_left merge_week ws [])
  = fold_left merge_week ws [].
Proof.
  intros Hteam. induction more as [|w more IH]; intros Hincl;
    [reflexivity|].
  simpl. assert (Hw : In w ws) by (apply Hincl; now left).
  destruct (merged_get ws (date w)) as [_ Hget].
  destruct (dated (date w) ws) as [|w0 later] eqn:Hd.
  - exfalso. assert (Hin : In w (dated (date w) ws)) by now apply dated_In.
    now rewrite Hd in Hin.
  - assert (Hw0 : In w0 ws).
    { assert (Hin : In w0 (dated (date w) ws)) by (rewrite Hd; now left).
      now apply dated_In in Hin. }
    rewrite (merge_week_absorbed _ w _ Hget).
    + apply IH. intros x Hx. apply Hincl. now right.
    + intros x Hx. apply merged_week_reports_In. exists w. split; [|assumption].
      assert (Hin : In w (dated (date w) ws)) by now apply dated_In.
      now rewrite Hd in Hin.
    + rewrite merged_week_team_report; now apply Hteam.
Qed.

(** X8.  Naming example directories again changes nothing: when every
    directory of [again] already occurs in [dirs], the merge of
    [dirs ++ again] is the merge of [dirs]. *)
Theorem collect_examples_from_dirs_repeated (dirs again : list Folder) :
  incl again dirs ->
  collect_examples_from_dirs (dirs ++ again)
  = collect_examples_from_dirs dirs.
Proof.
  intros Hincl. rewrite !collect_examples_from_dirs_eq.
  unfold weeks_in_order. rewrite map_app, concat_app, fold_left_app.
  f_equal. apply merge_again.
  - apply weeks_in_order_team_report.
  - intros w Hw. apply in_concat in Hw as (ws & Hws & Hw).
    apply in_map_iff in Hws as (dir & <- & Hdir).
    apply in_concat. exists (collect_examples dir). split; [|assumption].
    apply in_map. now apply Hincl.
Qed.

Lemma collect_examples_from_dirs_repeated_witness :
  collect_examples_from_dirs ([twice_dir; other_dir] ++ [other_dir; twice_dir])
  = collect_examples_from_dirs [twice_dir; other_dir].
Proof.
  apply collect_examples_from_dirs_repeated.
  intros dir [<-|[<-|[]]]; simpl; auto.
Defined.

Lemma merged_keys (ws : list ExampleWeek) (m : Dict ExampleWeek) :
  map fst (fold_left merge_week ws m) = add_new (map fst m) (map date ws).
Proof.
  revert m. induction ws as [|w ws IH]; intros m; [reflexivity|].
  simpl. rewrite IH, merge_week_keys. unfold add_new. simpl.
  now destruct (existsb (str_eqb (date w)) (map fst m)).
Qed.

Lemma merged_values_dates (ws : list ExampleWeek) :
  map date (map snd (fold_left merge_week ws []))
  = map fst (fold_left merge_week ws []).
Proof.
  destruct (merged_get ws []) as [Hnd _].
  rewrite map_map. apply map_ext_in. intros [k e] Hin. simpl.
  apply (In_dict_get _ _ _ Hnd) in Hin.
  rewrite (proj2 (merged_get ws k)) in Hin.
  destruct (dated k ws) as [|w0 later] eqn:Hd; [discriminate|].
  injection Hin as <-. simpl.
  assert (Hw0 : In w0 (dated k ws)) by (rewrite Hd; now left).
  now apply dated_In in Hw0.
Qed.

(** X9.  The merged weeks are listed in the order in which their dates
    first occur across the directories, and a directory that does not
    exist contributes nothing: leaving it out of the list gives the same
    result. *)
Theorem collect_examples_from_dirs_order (dirs : list Folder) :
  map date (collect_examples_from_dirs dirs)
  = add_new [] (map date (weeks_in_order dirs))
  /\ (forall d, In d (map date (collect_examples_from_dirs dirs)) <->
                exists dir, In dir dirs
                            /\ In d (map date (collect_examples dir)))
  /\ (forall before after,
         dirs = before ++ None :: after ->
         collect_examples_from_dirs dirs
         = collect_examples_from_dirs (before ++ after)).
Proof.
  assert (Hdates : map date (collect_examples_from_dirs dirs)
                   = add_new [] (map date (weeks_in_order dirs))).
  { rewrite collect_examples_from_dirs_eq, merged_values_dates.
    apply merged_keys. }
  split; [exact Hdates|]. split.
  - intros d. rewrite Hdates, add_new_In. simpl. split.
    + intros [[]|Hin]. apply in_map_iff in Hin as (w & <- & Hw).
      unfold weeks_in_order in Hw. apply in_concat in Hw as (ws & Hws & Hw).
      apply in_map_iff in Hws as (dir & <- & Hdir).
      exists dir. split; [assumption | now apply in_map].
    + intros (dir & Hdir & Hin). right.
      apply in_map_iff in Hin as (w & <- & Hw). apply in_map.
      unfold weeks_in_order. apply in_concat.
      exists (collect_examples dir). split; [now apply in_map | assumption].
  - intros before after ->. rewrite !collect_examples_from_dirs_eq.
    unfold weeks_in_order. now rewrite !map_app, !concat_app.
Qed.

(** ** The prompt *)

Lemma strictly_sorted_unique (l1 l2 : list ExampleWeek) :
  StronglySorted after l1 -> StronglySorted after l2 ->
  Permutation l1 l2 -> l1 = l2.
Proof.
  revert l2. induction l1 as [|a r1 IH]; intros l2 H1 H2 Hp.
  - apply Permutation_nil in Hp. now subst.
  - destruct l2 as [|b r2].
    { apply Permutation_sym, Permutation_nil in Hp. discriminate. }
    apply StronglySorted_inv in H1 as [Hr1 Ha].
    apply StronglySorted_inv in H2 as [Hr2 Hb].
    rewrite Forall_forall in Ha, Hb.
    assert (E : a = b).
    { assert (Hin_a : In a (b :: r2))
        by (eapply Permutation_in; [exact Hp | now left]).
      assert (Hin_b : In b (a :: r1))
        by (eapply Permutation_in;
            [apply Permutation_sym; exact Hp | now left]).
      destruct Hin_a as [E|Hin_a]; [now symmetry|].
      destruct Hin_b as [E|Hin_b]; [assumption|].
      apply Hb in Hin_a. apply Ha in Hin_b. unfold after in *.
      apply str_ltb_asym in Hin_a. congruence. }
    subst b. f_equal. apply IH; auto.
    now apply Permutation_cons_inv in Hp.
Qed.

(** X10.  When the dates are pairwise distinct the few-shot block does
    not depend on the order of the weeks it is given: two lists with
    the same weeks render to the same text. *)
Theorem build_few_shot_examples_order_independent
        (weeks weeks' : list ExampleWeek) :
  Permutation weeks weeks' -> NoDup (map date weeks) ->
  build_few_shot_examples weeks = build_few_shot_examples weeks'.
Proof.
  intros Hp Hnd.
  assert (E : sorted_by_date_desc weeks = sorted_by_date_desc weeks').
  { apply strictly_sorted_unique.
    - apply sorted_distinct_strict; [apply sorted_by_date_desc_sorted|].
      eapply Permutation_NoDup; [|exact Hnd].
      apply Permutation_map, sorted_by_date_desc_perm.
    - apply sorted_distinct_strict; [apply sorted_by_date_desc_sorted|].
      eapply Permutation_NoDup; [|exact Hnd].
      apply Permutation_map.
      rewrite <- sorted_by_date_desc_perm. exact Hp.
    - rewrite <- !sorted_by_date_desc_perm. exact Hp. }
  unfold build_few_shot_examples. rewrite E.
  destruct weeks as [|w l], weeks' as [|w' l']; try reflexivity.
  apply Permutation_nil in Hp. discriminate.
Qed.

Lemma build_few_shot_examples_order_independent_witness :
  build_few_shot_examples [week_c; week_a]
  = build_few_shot_examples [week_a; week_c].
Proof.
  apply build_few_shot_examples_order_independent.
  - apply perm_swap.
  - repeat constructor; simpl; intuition discriminate.
Defined.

Lemma insert_desc_not_nil (w : ExampleWeek) (l : list ExampleWeek) :
  insert_desc w l <> [].
Proof.
  destruct l as [|x l]; simpl; [discriminate|].
  destruct (str_ltb (date w) (date x)); discriminate.
Qed.

Lemma build_few_shot_examples_not_nil (weeks : list ExampleWeek) :
  weeks <> [] -> build_few_shot_examples weeks <> [].
Proof.
  destruct weeks as [|w l]; [contradiction|]. intros _.
  unfold build_few_shot_examples. simpl sorted_by_date_desc.
  destruct (insert_desc w (sorted_by_date_desc l)) as [|x rest] eqn:E.
  - now apply insert_desc_not_nil in E.
  - simpl. destruct (map example_block rest); discriminate.
Qed.

(** X11.  The prompt the runner builds has the [FEW-SHOT EXAMPLES:]
    section exactly when the example directories give at least one
    week: with no week the header occurs only if a member report
    contains it, with one or more weeks it is always there. *)
Theorem prompt_has_examples_section_iff_weeks
        (rt : Runtime) (args : Args) (member_markdowns : list str) :
  contains FEW_SHOT_HEADER (prompt_of rt args member_markdowns)
  = match collect_examples_from_dirs (map (folder_at rt) (examples args)) with
    | [] => existsb (contains FEW_SHOT_HEADER) member_markdowns
    | _ :: _ => true
    end.
Proof.
  unfold prompt_of.
  destruct (collect_examples_from_dirs _) as [|w l] eqn:E.
  - apply header_absent_without_examples.
  - apply header_present_with_examples.
    now apply build_few_shot_examples_not_nil.
Qed.

Lemma report_blocks_nth (member_markdowns : list str) (start k : nat)
      (txt : str) :
  nth_error member_markdowns k = Some txt ->
  exists before after,
    join (nl ++ nl) (report_blocks start member_markdowns)
    = before ++ report_block (start + k) txt ++ after.
Proof.
  revert start k. induction member_markdowns as [|m ms IH];
    intros start k H; [destruct k; discriminate|].
  destruct k as [|k]; simpl in H.
  - injection H as ->. rewrite Nat.add_0_r. exists [].
    cbn [report_blocks]. destruct ms as [|m2 ms].
    + exists []. simpl. now rewrite app_nil_r.
    + eexists. cbn [report_blocks join app]. reflexivity.
  - destruct (IH (S start) k H) as (before & after & E).
    destruct ms as [|m2 ms]; [destruct k; discriminate|].
    exists (report_block start m ++ (nl ++ nl) ++ before), after.
    change (join (nl ++ nl) (report_blocks start (m :: m2 :: ms)))
      with (report_block start m ++ (nl ++ nl)
            ++ join (nl ++ nl) (report_blocks (S start) (m2 :: ms))).
    rewrite E, <- !app_assoc, Nat.add_succ_r. reflexivity.
Qed.

(** X12.  Every member report is in the prompt, verbatim and in its own
    block: the report at position [k] of the list, counting from 0,
    stands between [<REPORT index=k+1>] and [</REPORT>], whatever the
    examples block is. *)
Theorem build_prompt_holds_every_report
        (member_markdowns : list str) (examples_block : str)
        (k : nat) (txt : str) :
  nth_error member_markdowns k = Some txt ->
  exists before after,
    build_prompt member_markdowns examples_block
    = before ++ report_block (S k) txt ++ after.
Proof.
  intros H. destruct (report_blocks_nth _ 1 k txt H) as (b & a & E).
  unfold build_prompt. rewrite E. change (1 + k)%nat with (S k).
  generalize (report_block (S k) txt) as block.
  generalize (intro ++ instructions ++ nl) as head.
  generalize (if truthy examples_block
              then nl ++ FEW_SHOT_HEADER ++ nl ++ examples_block ++ nl
              else []) as shots.
  generalize (py "TARGET INPUT:") as target.
  generalize (py "Generate the consolidated department weekly report in markdown now.") as closing.
  intros closing target shots head block.
  exists (head ++ shots ++ nl ++ target ++ nl ++ b),
         (a ++ nl ++ nl ++ closing).
  now rewrite <- !app_assoc.
Qed.

Lemma build_prompt_holds_every_report_witness :
  exists before after,
    build_prompt [py "first"; py "second"] []
    = before ++ report_block 2 (py "second") ++ after.
Proof.
  exact (build_prompt_holds_every_report [py "first"; py "second"] []
           1 (py "second") eq_refl).
Defined.

(** ** The answer of the model *)

(** X13.  [call_llm] finds the content in a response whose parts are
    objects read by attribute, dictionaries read by key, or any mix of
    the two: it returns the [content] of the [message] of the first
    choice, prints nothing, and sends the one request. *)
Theorem call_llm_reads_both_shapes
        (rt : Runtime) (model prompt : str) (max_tokens : Z)
        (s1 s2 s3 : style) (f1 f2 f3 : list (str * pyval))
        (more : list pyval) (content : pyval) :
  acompletion rt (_parse_temperature rt) model prompt max_tokens
  = inr (container s1 f1) ->
  dict_get f1 K_choices = Some (PList (container s2 f2 :: more)) ->
  dict_get f2 K_message = Some (container s3 f3) ->
  dict_get f3 K_content = Some content ->
  call_llm rt model prompt max_tokens
  = ([Acompletion (_parse_temperature rt) model prompt max_tokens],
     inr content).
Proof.
  intros Hresp H1 H2 H3.
  assert (A1 : attr_or_key (container s1 f1) K_choices
               = PList (container s2 f2 :: more)).
  { unfold attr_or_key, getattr, dict_get_value.
    destruct s1; simpl; now rewrite H1. }
  assert (A2 : attr_or_key (container s2 f2) K_message = container s3 f3).
  { unfold attr_or_key, getattr, dict_get_value.
    destruct s2; simpl; rewrite H2; [now destruct s3 | reflexivity]. }
  assert (A3 : attr_or_key (container s3 f3) K_content = content).
  { unfold attr_or_key, getattr, dict_get_value.
    destruct s3; simpl; rewrite H3; [now destruct content | reflexivity]. }
  assert (T : pytruthy (container s3 f3) = true).
  { destruct s3; simpl; [reflexivity|]. destruct f3; [discriminate|].
    reflexivity. }
  unfold call_llm, call_llm_try, bind, emit, ret, getitem0.
  rewrite Hresp. cbv beta iota. rewrite A1. simpl. rewrite A2, T, A3.
  reflexivity.
Qed.

(** An object whose choices are dictionaries. *)
Lemma call_llm_reads_both_shapes_witness :
  call_llm
    (rt_answering
       (inr (PObj [(K_choices,
                    PList [PDict [(K_message,
                                   PObj [(K_content, PStr (py "ok"))])]])])))
    (py "m") (py "p") 2000
  = ([Acompletion f_half (py "m") (py "p") 2000], inr (PStr (py "ok"))).
Proof.
  exact (call_llm_reads_both_shapes
           (rt_answering
              (inr (PObj [(K_choices,
                           PList [PDict [(K_message,
                                          PObj [(K_content,
                                                 PStr (py "ok"))])]])])))
           (py "m") (py "p") 2000 ByAttribute ByKey ByAttribute
           _ _ _ [] (PStr (py "ok")) eq_refl eq_refl eq_refl eq_refl).
Defined.

(** ** Credentials and the runner *)

(** X14.  [ensure_api_key_present] returns exactly when one of the six
    variables it knows is set to a non-empty string: a variable set to
    the empty string does not count, and other variables are not looked
    at.  Otherwise it raises the [RuntimeError] with its fixed
    message. *)
Theorem ensure_api_key_present_iff (rt : Runtime) :
  (ensure_api_key_present rt = None <->
   exists k v, In k API_KEY_VARS /\ getenv rt k = Some v /\ v <> [])
  /\ (ensure_api_key_present rt <> None ->
      ensure_api_key_present rt = Some NO_API_KEY)
  /\ (forall env,
         (forall k, In k API_KEY_VARS -> env k = getenv rt k) ->
         ensure_api_key_present (with_getenv env rt)
         = ensure_api_key_present rt).
Proof.
  unfold ensure_api_key_present. split; [|split].
  - destruct (existsb _ API_KEY_VARS) eqn:E.
    + split; [intros _|reflexivity].
      apply existsb_exists in E as (k & Hk & Hv).
      destruct (getenv rt k) as [v|] eqn:G; [|discriminate].
      exists k, v. repeat split; auto. now apply truthy_true.
    + split; [discriminate|]. intros (k & v & Hk & G & Hv). exfalso.
      assert (Hex : existsb
                      (fun k => match getenv rt k with
                                | Some v => truthy v
                                | None => false
                                end) API_KEY_VARS = true).
      { apply existsb_exists. exists k. split; [assumption|].
        rewrite G. now apply truthy_true. }
      congruence.
  - destruct (existsb _ API_KEY_VARS); [contradiction | reflexivity].
  - intros env Henv. cbn [getenv with_getenv].
    assert (E : forall l, incl l API_KEY_VARS ->
              existsb (fun k => match env k with
                                | Some v => truthy v
                                | None => false
                                end) l
              = existsb (fun k => match getenv rt k with
                                  | Some v => truthy v
                                  | None => false
                                  end) l).
    { induction l as [|k l IH]; intros Hl; [reflexivity|]. simpl.
      rewrite IH, (Henv k); [reflexivity | |].
      - apply Hl. now left.
      - intros x Hx. apply Hl. now right. }
    now rewrite (E API_KEY_VARS (incl_refl _)).
Qed.

(** X15.  The runner does not make the credential check: with
    reports in the source folder it sends the request to the model also
    in an environment in which [ensure_api_key_present] raises, and by
    then it has printed at most the prompt. *)
Theorem main_sends_request_without_api_key
        (rt : Runtime) (args : Args) (entries : list Path)
        (m : str) (ms : list str) :
  folder_at rt (source args) = Some entries ->
  gather_member_markdowns (Some entries) = m :: ms ->
  ensure_api_key_present rt = Some NO_API_KEY ->
  exists rest,
    fst (main rt args)
    = (if dry_run args then [Print Stdout (prompt_of rt args (m :: ms))]
       else [])
      ++ Acompletion (_parse_temperature rt) (model args)
                     (prompt_of rt args (m :: ms)) (max_tokens args)
         :: rest.
Proof.
  intros Hf Hg _. rewrite (main_with_reports rt args entries m ms Hf Hg).
  destruct (run_trace_starts_with_request rt args
              (prompt_of rt args (m :: ms))) as (rest & -> & _).
  now exists rest.
Qed.

(** The scenario in an environment without any API key. *)
Lemma main_sends_request_without_api_key_witness :
  ensure_api_key_present
    (with_getenv env_without_keys (rt_scenario (inr PNone)))
  = Some NO_API_KEY
  /\ exists rest,
       fst (main (with_getenv env_without_keys (rt_scenario (inr PNone)))
                 (scenario_args false))
       = Acompletion f_one (py "m")
           (prompt_of (with_getenv env_without_keys (rt_scenario (inr PNone)))
                      (scenario_args false)
                      (scenario_first :: scenario_rest))
           2000
         :: rest.
Proof.
  split; [reflexivity|].
  assert (Hgather : gather_member_markdowns scenario_source
                    = scenario_first :: scenario_rest)
    by (vm_compute; reflexivity).
  exact (main_sends_request_without_api_key
           (with_getenv env_without_keys (rt_scenario (inr PNone)))
           (scenario_args false) _ scenario_first scenario_rest
           eq_refl Hgather eq_refl).
Defined.

Lemma gather_member_markdowns_In (dir : Folder) (chunk : str) :
  In chunk (gather_member_markdowns dir) <->
  exists name d p,
    In (name, d, p) (iter_member_reports dir)
    /\ load_markdown_from_file p <> []
    /\ chunk = member_chunk name (load_markdown_from_file p).
Proof.
  unfold gather_member_markdowns. rewrite in_flat_map. split.
  - intros ([[name d] p] & Hin & Hc).
    destruct (truthy (load_markdown_from_file p)) eqn:Ht; simpl in Hc;
      [|contradiction].
    destruct Hc as [<-|[]]. exists name, d, p.
    repeat split; auto. now apply truthy_true.
  - intros (name & d & p & Hin & Hne & ->). exists (name, d, p).
    split; [assumption|]. apply truthy_true in Hne. rewrite Hne. now left.
Qed.

(** X16.  The runner sends a request to the model exactly when the
    source folder exists and at least one file yielded from it has a
    non-empty text.  Otherwise it ends by [SystemExit] before anything is
    printed, requested or written. *)
Theorem main_calls_model_iff_reports (rt : Runtime) (args : Args) :
  (existsb is_Acompletion (fst (main rt args)) = true <->
   exists entries name d p,
     folder_at rt (source args) = Some entries
     /\ In (name, d, p) (iter_member_reports (Some entries))
     /\ load_markdown_from_file p <> [])
  /\ (existsb is_Acompletion (fst (main rt args)) = false ->
      fst (main rt args) = []
      /\ exists msg, snd (main rt args) = SystemExit msg).
Proof.
  destruct (folder_at rt (source args)) as [entries|] eqn:Hf.
  - destruct (gather_member_markdowns (Some entries)) as [|m ms] eqn:Hg.
    + assert (Hmain : exists msg, main rt args = ([], SystemExit msg)).
      { unfold main. rewrite Hf, Hg. eauto. }
      destruct Hmain as (msg & ->). simpl. split.
      * split; [discriminate|].
        intros (entries' & name & d & p & E & Hin & Hne).
        injection E as <-.
        assert (Hc : In (member_chunk name (load_markdown_from_file p))
                        (gather_member_markdowns (Some entries))).
        { apply gather_member_markdowns_In. exists name, d, p. auto. }
        now rewrite Hg in Hc.
      * intros _. eauto.
    + rewrite (main_with_reports rt args entries m ms Hf Hg).
      destruct (run_trace_starts_with_request rt args
                  (prompt_of rt args (m :: ms))) as (rest & -> & _).
      cbn [fst]. rewrite existsb_app. simpl. rewrite orb_true_r. split.
      * split; [intros _|reflexivity].
        assert (Hc : In m (gather_member_markdowns (Some entries)))
          by (rewrite Hg; now left).
        apply gather_member_markdowns_In in Hc
          as (name & d & p & Hin & Hne & _).
        exists entries, name, d, p. auto.
      * discriminate.
  - assert (Hmain : exists msg, main rt args = ([], SystemExit msg)).
    { unfold main. rewrite Hf. eauto. }
    destruct Hmain as (msg & ->). simpl. split.
    + split; [discriminate|].
      intros (entries & name & d & p & E & _). discriminate.
    + intros _. eauto.
Qed.
